(** * Mood-Based Music Player: mood inference and playback routing

    A shallow embedding of [mood_player.py] and the properties of its
    decision logic: the majority vote over per-frame emotion labels, the
    polarity thresholds, manual mood validation, the playback routing of
    [main], the folder bootstrap and the Spotify device selection.

    Python values are modelled as follows.
    - [str] is [string]; a character of the input is a code point below
      256, and printed text keeps the bytes of the source file.
    - [float] is [spec_float], the IEEE 754 binary64 specification of the
      standard library, compared with [SFltb].
    - an exception is a value of [exn]; a call that may raise returns [res].
    - [sys.stdout] is a function from the line written to the result of
      the write, a parameter of a run: [print] raises what the write
      raises.
    - [set(l)] is a list without duplicates whose order is the iteration
      order of the hash table, a parameter of the model.
    - the file system is a finite map from paths to nodes. *)

From Stdlib Require Import ZArith QArith Qpower Lia List Ascii Permutation.
From Stdlib Require String.
From Stdlib Require Import Floats.SpecFloat.
From Stdlib Require Floats.PrimFloat Floats.FloatOps.
Import (notations) PrimFloat.
From stdpp Require Import base option gmap strings list.
Import ListNotations.

Local Open Scope list_scope.
Local Open Scope nat_scope.

(** ** Exceptions and results *)

Inductive exn : Type :=
| ValueError (msg : string)
| RuntimeError (msg : string)
| EOFError
| FileNotFoundError (msg : string)
| FileExistsError (msg : string)
| NotADirectoryError (msg : string)
| IsADirectoryError (msg : string)
| UnicodeEncodeError (msg : string)
| LibraryError (msg : string).

(** [str(e)] *)
Definition exn_str (e : exn) : string :=
  match e with
  | ValueError msg | RuntimeError msg | FileNotFoundError msg
  | FileExistsError msg | NotADirectoryError msg | IsADirectoryError msg
  | UnicodeEncodeError msg | LibraryError msg => msg
  | EOFError => ""
  end.

Inductive res (A : Type) : Type :=
| Ok (a : A)
| Raise (e : exn).
Arguments Ok {A} a.
Arguments Raise {A} e.

(** ** Built-ins *)

Module Py.

Section Max.
Context {A K : Type} (ltb : K -> K -> bool) (key : A -> K).

(** The loop of [max(iterable, key=...)]: the running maximum is
    replaced only by an item whose key is strictly greater. *)
Fixpoint max_from (best : A) (rest : list A) : A :=
  match rest with
  | [] => best
  | x :: rest' =>
      if ltb (key best) (key x) then max_from x rest'
      else max_from best rest'
  end.

Definition max (it : list A) : res A :=
  match it with
  | [] => Raise (ValueError "max() iterable argument is empty")
  | x :: rest => Ok (max_from x rest)
  end.
End Max.

(** [l.count(x)] *)
Definition count (l : list string) (x : string) : nat :=
  count_occ String.string_dec l x.

(** [d.get(k)] on a dict kept as an association list in insertion
    order; [None] is the default. *)
Fixpoint get {V : Type} (d : list (string * V)) (k : string) : option V :=
  match d with
  | [] => None
  | (k', v) :: d' => if String.eqb k' k then Some v else get d' k
  end.

End Py.

(** ** Webcam mood detection *)

Module Webcam.

(** The last two statements of [detect_mood], given the votes and the
    iteration order [set_iter] of [set(emotion_votes)]. *)
Definition aggregate (set_iter : list string -> list string)
           (emotion_votes : list string) : res (option string) :=
  match emotion_votes with
  | [] => Ok None
  | _ :: _ =>
      match Py.max Nat.ltb (Py.count emotion_votes) (set_iter emotion_votes) with
      | Ok mood => Ok (Some mood)
      | Raise e => Raise e
      end
  end.

(** An iteration order is admissible when it enumerates the distinct
    elements of the list, each once. *)
Definition set_order (set_iter : list string -> list string) : Prop :=
  forall l, Permutation (set_iter l) (nodup String.string_dec l).

(** Two admissible orders: by last occurrence and its reverse. *)
Definition order_nodup (l : list string) : list string := nodup String.string_dec l.
Definition order_rev (l : list string) : list string := rev (nodup String.string_dec l).

End Webcam.

(** ** Strings *)

Module Str.

(** [c.isspace()] for a code point below 256. *)
Definition isspace (c : ascii) : bool :=
  let n := nat_of_ascii c in
  ((9 <=? n) && (n <=? 13)) || ((28 <=? n) && (n <=? 32))
  || (n =? 133) || (n =? 160).

(** [c.lower()] for a code point below 256. *)
Definition lower_char (c : ascii) : ascii :=
  let n := nat_of_ascii c in
  if ((65 <=? n) && (n <=? 90))
     || ((192 <=? n) && (n <=? 222) && negb (n =? 215))
  then ascii_of_nat (n + 32) else c.

Fixpoint lower (s : string) : string :=
  match s with
  | EmptyString => EmptyString
  | String c s' => String (lower_char c) (lower s')
  end.

Fixpoint lstrip (s : string) : string :=
  match s with
  | EmptyString => EmptyString
  | String c s' => if isspace c then lstrip s' else s
  end.

Fixpoint rstrip (s : string) : string :=
  match s with
  | EmptyString => EmptyString
  | String c s' =>
      match rstrip s' with
      | EmptyString => if isspace c then EmptyString else String c EmptyString
      | t => String c t
      end
  end.

(** [s.strip()] *)
Definition strip (s : string) : string := rstrip (lstrip s).

(** [s.startswith(p)] *)
Fixpoint startswith (p s : string) : bool :=
  match p with
  | EmptyString => true
  | String a p' =>
      match s with
      | EmptyString => false
      | String b s' => Ascii.eqb a b && startswith p' s'
      end
  end.

(** [sep.join(l)] *)
Definition join (sep : string) (l : list string) : string := String.concat sep l.

(** [s.split(sep)] for a one-character separator, empty pieces dropped. *)
Fixpoint split_on (sep : ascii) (cur : string) (s : string) : list string :=
  match s with
  | EmptyString => if String.eqb cur "" then [] else [cur]
  | String c s' =>
      if Ascii.eqb c sep
      then (if String.eqb cur "" then [] else [cur]) ++ split_on sep "" s'
      else split_on sep (cur +:+ String c EmptyString) s'
  end.

End Str.

(** ** Configuration *)

Definition MOOD_FOLDERS : list (string * string) :=
  [ ("happy", "music/happy");
    ("sad", "music/sad");
    ("angry", "music/angry");
    ("surprise", "music/surprise");
    ("neutral", "music/neutral");
    ("fear", "music/fear");
    ("disgust", "music/disgust") ].

(** The mood set of the specification. *)
Definition moods : list string :=
  ["happy"; "sad"; "angry"; "surprise"; "neutral"; "fear"; "disgust"].

(** [k in d] *)
Definition dict_mem {V : Type} (k : string) (d : list (string * V)) : bool :=
  match Py.get d k with Some _ => true | None => false end.

(** ** Text mood detection *)

Module Text.

(** The literal [0.3]: the binary64 number nearest to 3/10,
    5404319552844595 * 2^-54. *)
Definition f0_3 : spec_float := S754_finite false 5404319552844595 (-54).

(** The three-way branch of [detect_mood] on the polarity. *)
Definition mood_of_polarity (polarity : spec_float) : string :=
  if SFltb f0_3 polarity then "happy"
  else if SFltb polarity (SFopp f0_3) then "sad"
  else "neutral".

(** [sentiment] stands for [TextBlob(text).sentiment.polarity]. *)
Definition detect_mood (sentiment : string -> spec_float) (text : string) : string :=
  mood_of_polarity (sentiment text).

(** The real number a float denotes; infinities and NaN denote none. *)
Definition SF2Q (x : spec_float) : option Q :=
  match x with
  | S754_zero _ => Some 0%Q
  | S754_finite s m e =>
      Some (inject_Z (if s then Zneg m else Zpos m) * Qpower 2 e)%Q
  | S754_infinity _ | S754_nan => None
  end.

(** A binary64 datum: 53 bits of precision, exponents below 1024. *)
Definition binary64 (x : spec_float) : Prop := valid_binary 53 1024 x = true.

(** [M * 2^e] with the power of two written out. *)
Definition scaled (M : Z) (e : Z) : Q :=
  match e with
  | Zneg k => M # (2 ^ k)%positive
  | _ => inject_Z (M * 2 ^ e)
  end.

(** The float [0.5]. *)
Definition half : spec_float := S754_finite false 4503599627370496 (-53).

End Text.

(** ** The result monad *)

Definition res_bind {A B : Type} (r : res A) (k : A -> res B) : res B :=
  match r with
  | Ok a => k a
  | Raise e => Raise e
  end.

Declare Scope res_scope.
Delimit Scope res_scope with res.
Notation "x <- r ;; k" := (res_bind r (fun x => k))
  (at level 100, r at next level, right associativity) : res_scope.

(** ** File system and folder bootstrap *)

Module FS.

(** A path is the list of its components below the working directory. *)
Definition path : Type := list string.

Inductive node : Type :=
| Dir
| File (content : string).

(** The working directory [[]] is a directory and is not stored. *)
Definition node_at (t : gmap path node) (p : path) : option node :=
  match p with
  | [] => Some Dir
  | _ :: _ => t !! p
  end.

(** [Path(p).exists()] *)
Definition exists_ (t : gmap path node) (p : path) : bool :=
  match node_at t p with Some _ => true | None => false end.

(** [Path(p).is_dir()] *)
Definition is_dir (t : gmap path node) (p : path) : bool :=
  match node_at t p with Some Dir => true | _ => false end.

Definition parent (p : path) : path := removelast p.

(** [Path(s)] for a relative path string. *)
Definition of_string (s : string) : path := Str.split_on "/"%char "" s.

(** [os.mkdir(p)] *)
Definition os_mkdir (t : gmap path node) (p : path) : res (gmap path node) :=
  match node_at t p with
  | Some _ => Raise (FileExistsError "File exists")
  | None =>
      match node_at t (parent p) with
      | None => Raise (FileNotFoundError "No such file or directory")
      | Some (File _) => Raise (NotADirectoryError "Not a directory")
      | Some Dir => Ok (<[p := Dir]> t)
      end
  end.

(** The second attempt of [Path.mkdir], with [exist_ok=True]: an error
    is swallowed when the path is a directory. *)
Definition mkdir_exist_ok (t : gmap path node) (p : path) : res (gmap path node) :=
  match os_mkdir t p with
  | Ok t' => Ok t'
  | Raise e => if is_dir t p then Ok t else Raise e
  end.

(** [Path(p).mkdir(parents=True, exist_ok=True)], by recursion on the
    components of [p] from the last one: [rp] is [rev p]. *)
Fixpoint mkdir_parents_rev (t : gmap path node) (rp : list string)
  : res (gmap path node) :=
  match rp with
  | [] => Ok t
  | _ :: rparent =>
      match os_mkdir t (rev rp) with
      | Ok t' => Ok t'
      | Raise (FileNotFoundError _) =>
          (t1 <- mkdir_parents_rev t rparent ;;
           mkdir_exist_ok t1 (rev rp))%res
      | Raise e => if is_dir t (rev rp) then Ok t else Raise e
      end
  end.

Definition mkdir_parents (t : gmap path node) (p : path) : res (gmap path node) :=
  mkdir_parents_rev t (rev p).

(** [Path(p).write_text(content)] *)
Definition write_text (t : gmap path node) (p : path) (content : string)
  : res (gmap path node) :=
  match node_at t (parent p) with
  | None => Raise (FileNotFoundError "No such file or directory")
  | Some (File _) => Raise (NotADirectoryError "Not a directory")
  | Some Dir =>
      match node_at t p with
      | Some Dir => Raise (IsADirectoryError "Is a directory")
      | _ => Ok (<[p := File content]> t)
      end
  end.

(** The loop of [ensure_music_folders] over [MOOD_FOLDERS.items()]. *)
Fixpoint ensure_loop (items : list (string * string)) (t : gmap path node)
  : res (gmap path node) :=
  match items with
  | [] => Ok t
  | (mood, path_str) :: rest =>
      let p := of_string path_str in
      if exists_ t p then ensure_loop rest t
      else
        (t1 <- mkdir_parents t p ;;
         t2 <- write_text t1 (p ++ ["README.txt"])
                 ("Place mp3 files for mood '" +:+ mood +:+ "' in this folder.") ;;
         ensure_loop rest t2)%res
  end.

Definition ensure_music_folders (t : gmap path node) : res (gmap path node) :=
  ensure_loop MOOD_FOLDERS t.

(** The mood directories of the configuration. *)
Definition mood_paths : list path := map (fun kv => of_string (snd kv)) MOOD_FOLDERS.

End FS.

(** ** Input, output and calls to the collaborators *)

Inductive backend : Type := Streaming | Local.

(** A call to an external library. *)
Inductive call : Type :=
| CapRelease
| SpSearch (q : string)
| SpDevices
| SpStartPlayback (device_id context_uri : string)
| PathExists (folder : string)
| PathIterdir (folder : string)
| MixerLoad (filepath : string)
| MixerPlay (filepath : string).

(** What a run does, in order. [ECall c ok] is a call that returned
    ([ok = true]) or raised. [EAttempt b] marks the entry of the method
    that tries backend [b]; it prints nothing. *)
Inductive event : Type :=
| EPrint (line : string)
| EPrompt (prompt : string)
| ECall (c : call) (ok : bool)
| EAttempt (b : backend).

Module IO.

(** What [sys.stdout] does with a line: it is written, or the write
    raises, as with [UnicodeEncodeError] when the encoding of the
    terminal has no code for a character of the line. *)
Definition stdout : Type := string -> res unit.

(** A terminal that takes every line, as one in UTF-8 does. *)
Definition accepting : stdout := fun _ => Ok tt.

(** A computation writes to standard output, reads lines of standard
    input and yields a result, the unread input and the events it
    caused, in order. *)
Definition M (A : Type) : Type :=
  stdout -> list string -> res A * list string * list event.

Definition ret {A : Type} (a : A) : M A := fun _ ins => (Ok a, ins, []).

Definition bind {A B : Type} (m : M A) (k : A -> M B) : M B :=
  fun out ins =>
    match m out ins with
    | (Ok a, ins1, evs1) =>
        match k a out ins1 with
        | (r, ins2, evs2) => (r, ins2, evs1 ++ evs2)
        end
    | (Raise e, ins1, evs1) => (Raise e, ins1, evs1)
    end.

Definition raise {A : Type} (e : exn) : M A := fun _ ins => (Raise e, ins, []).

(** [try: m  except Exception as e: h e] *)
Definition try_except {A : Type} (m : M A) (h : exn -> M A) : M A :=
  fun out ins =>
    match m out ins with
    | (Ok a, ins1, evs1) => (Ok a, ins1, evs1)
    | (Raise e, ins1, evs1) =>
        match h e out ins1 with
        | (r, ins2, evs2) => (r, ins2, evs1 ++ evs2)
        end
    end.

Definition emit (ev : event) : M unit := fun _ ins => (Ok tt, ins, [ev]).

(** [print(line)]: the line is an event when the terminal took it;
    otherwise nothing was written and the exception of the write is
    raised. *)
Definition print (line : string) : M unit :=
  fun out ins =>
    match out line with
    | Ok _ => (Ok tt, ins, [EPrint line])
    | Raise e => (Raise e, ins, [])
    end.

(** [input(prompt)]: the prompt is written, then the next line of
    standard input is read, with [EOFError] at its end. *)
Definition input (prompt : string) : M string :=
  fun out ins =>
    match out prompt with
    | Raise e => (Raise e, ins, [])
    | Ok _ =>
        match ins with
        | [] => (Raise EOFError, [], [EPrompt prompt])
        | line :: rest => (Ok line, rest, [EPrompt prompt])
        end
    end.

Definition is_ok {A : Type} (r : res A) : bool :=
  match r with Ok _ => true | Raise _ => false end.

(** A library call with answer [r]. *)
Definition call {A : Type} (c : call) (r : res A) : M A :=
  fun _ ins => (r, ins, [ECall c (is_ok r)]).

Definition lift {A : Type} (r : res A) : M A := fun _ ins => (r, ins, []).

End IO.

Declare Scope io_scope.
Delimit Scope io_scope with io.
Notation "x <- m ;; k" := (IO.bind m (fun x => k))
  (at level 100, m at next level, right associativity) : io_scope.
Notation "m ;; k" := (IO.bind m (fun _ => k))
  (at level 100, right associativity) : io_scope.

(** ** The collaborators *)

Record playlist : Type := { pl_uri : string; pl_name : string }.
Record device : Type := { dev_id : string; dev_name : string }.

(** The JSON answer of [sp.search]: ["playlists"] and, below it,
    ["items"] may be missing. *)
Record search_result : Type := { sr_playlists : option (option (list playlist)) }.

(** The JSON answer of [sp.devices]. *)
Record devices_result : Type := { dr_devices : option (list device) }.

(** One entry of [Path.iterdir()]: [str(x)] and [x.suffix]. *)
Record dir_entry : Type := { de_str : string; de_suffix : string }.

(** One pass of the capture loop as the libraries answer it. [ReadFail]:
    [cap.read()] returns no frame. [ReadOk results key]: a frame, the
    faces [detect_emotions] finds in it, each as its ["emotions"] dict,
    and, when the window is displayed, the key of [cv2.waitKey(1)].
    [ReadRaise e]: a call of the pass raises [e], be it [cap.read],
    [cv2.cvtColor], [detect_emotions], the lookup [results[0]["emotions"]]
    or a call that draws the window. *)
Inductive cam_read : Type :=
| ReadFail
| ReadOk (results : list (list (string * spec_float))) (key : Z)
| ReadRaise (e : exn).

Record world : Type := {
  w_set_iter : list string -> list string;
  w_cam_opened : bool;
  w_cam_reads : list cam_read;
  w_polarity : string -> spec_float;
  w_search : string -> res search_result;
  w_devices : res devices_result;
  w_start_playback : string -> string -> res unit;
  w_exists : string -> bool;
  w_iterdir : string -> res (list dir_entry);
  w_random : nat;
  w_redraw : nat;
  w_mixer_load : string -> res unit;
  w_mixer_play : string -> res unit;
  w_busy_polls : nat
}.

(** [list_music_files] *)
Definition audio_suffixes : list string := [".mp3"; ".wav"; ".ogg"; ".flac"].

Definition is_audio (x : dir_entry) : bool :=
  existsb (String.eqb (Str.lower (de_suffix x))) audio_suffixes.

Definition list_music_files (w : world) (folder : string) : IO.M (list string) :=
  (ex <- IO.call (PathExists folder) (Ok (w_exists w folder)) ;;
   if negb ex then IO.ret []
   else
     entries <- IO.call (PathIterdir folder) (w_iterdir w folder) ;;
     IO.ret (map de_str (List.filter is_audio entries)))%io.

(** ** Webcam capture *)

Module WebcamMoodDetector.

(** [face_emotions.get], a key of the dict always has a score. *)
Definition score (face_emotions : list (string * spec_float)) (k : string) : spec_float :=
  match Py.get face_emotions k with
  | Some v => v
  | None => S754_nan
  end.

(** The [while frames_taken < num_frames] loop: [n] frames remain. *)
Fixpoint capture (display : bool) (n : nat) (reads : list cam_read)
         (emotion_votes : list string) : res (list string) :=
  match n with
  | 0 => Ok emotion_votes
  | S n' =>
      match reads with
      | [] | ReadFail :: _ => Ok emotion_votes
      | ReadRaise e :: _ => Raise e
      | ReadOk results key :: reads' =>
          match results with
          | [] => capture display n' reads' emotion_votes
          | face_emotions :: _ =>
              (top_emotion <- Py.max SFltb (score face_emotions) (map fst face_emotions) ;;
               let votes' := emotion_votes ++ [top_emotion] in
               if display && (Z.land key 255 =? 113)%Z then Ok votes'
               else capture display n' reads' votes')%res
          end
      end
  end.

Definition detect_mood (w : world) (display : bool) (num_frames : nat)
  : IO.M (option string) :=
  if negb (w_cam_opened w) then
    (IO.print "Cannot open webcam. Check camera index or permissions." ;;
     IO.ret None)%io
  else
    (votes <- IO.try_except
                (IO.lift (capture display num_frames (w_cam_reads w) []))
                (fun e => IO.call CapRelease (Ok tt) ;; IO.raise e) ;;
     IO.call CapRelease (Ok tt) ;;
     IO.lift (Webcam.aggregate (w_set_iter w) votes))%io.

End WebcamMoodDetector.

(** ** Local music player *)

Module LocalMusicPlayer.

(** [while pygame.mixer.music.get_busy(): time.sleep(0.5)], the mixer
    being busy for [polls] more polls. *)
Fixpoint wait_idle (polls : nat) : IO.M unit :=
  match polls with
  | 0 => IO.ret tt
  | S polls' => wait_idle polls'
  end.

Definition play_file (w : world) (filepath : string) : IO.M unit :=
  (IO.print ("Playing: " +:+ filepath) ;;
   IO.try_except
     (IO.call (MixerLoad filepath) (w_mixer_load w filepath) ;;
      IO.call (MixerPlay filepath) (w_mixer_play w filepath) ;;
      wait_idle (w_busy_polls w))
     (fun e => IO.print ("Failed to play file: " +:+ exn_str e)))%io.

(** [random.choice(files)] for a non-empty list. *)
Definition random_choice (w : world) (files : list string) : string :=
  nth (w_random w mod length files) files "".

(** The world as a later call of [random.choice] finds it: the generator
    has moved on to its next draw. *)
Definition after_draw (w : world) : world :=
  {| w_set_iter := w_set_iter w; w_cam_opened := w_cam_opened w;
     w_cam_reads := w_cam_reads w; w_polarity := w_polarity w;
     w_search := w_search w; w_devices := w_devices w;
     w_start_playback := w_start_playback w; w_exists := w_exists w;
     w_iterdir := w_iterdir w; w_random := w_redraw w;
     w_redraw := w_redraw w;
     w_mixer_load := w_mixer_load w; w_mixer_play := w_mixer_play w;
     w_busy_polls := w_busy_polls w |}.

Definition play_random_for_mood (w : world) (mood : string) : IO.M unit :=
  (IO.emit (EAttempt Local) ;;
   match Py.get MOOD_FOLDERS mood with
   | None => IO.print ("No folder mapped for mood: " +:+ mood)
   | Some folder =>
       files <- list_music_files w folder ;;
       match files with
       | [] => IO.print ("No music files found in " +:+ folder
                          +:+ ". Please add mp3/ogg/wav files there.")
       | _ :: _ => play_file w (random_choice w files)
       end
   end)%io.

End LocalMusicPlayer.

(** ** Spotify controller *)

Module SpotifyController.

Definition find_playlist_for_mood (w : world) (mood_query : string)
  : IO.M (option (string * string)) :=
  (IO.emit (EAttempt Streaming) ;;
   let q := mood_query +:+ " playlist" in
   results <- IO.call (SpSearch q) (w_search w q) ;;
   let items :=
     match sr_playlists results with
     | Some (Some items) => items
     | _ => []
     end in
   match items with
   | [] => IO.ret None
   | top :: _ => IO.ret (Some (pl_uri top, pl_name top))
   end)%io.

Definition start_playback_by_uri (w : world) (playlist_uri : string) : IO.M unit :=
  (devices <- IO.call SpDevices (w_devices w) ;;
   let device_list := default [] (dr_devices devices) in
   match device_list with
   | [] => IO.raise (RuntimeError
             "No active Spotify devices found. Start Spotify on a device and try again.")
   | first :: _ =>
       let device_id := dev_id first in
       IO.call (SpStartPlayback device_id playlist_uri)
               (w_start_playback w device_id playlist_uri) ;;
       IO.print ("Playback started on device: " +:+ dev_name first)
   end)%io.

End SpotifyController.

(** ** The menu loop of [main] *)

Module Main.

Definition nl : string := String "010"%char EmptyString.

(** How the first half of an iteration ends: with a mood, with
    [continue], or with [break]. *)
Inductive acquired : Type :=
| Mood (mood : string)
| Again
| Exit.

Definition acquire (w : world) : IO.M acquired :=
  (IO.print (nl +:+ "Choose input method:") ;;
   IO.print "1) Webcam emotion detection" ;;
   IO.print "2) Type your mood/journal (text sentiment)" ;;
   IO.print "3) Manual mood selection" ;;
   IO.print "4) Exit" ;;
   line <- IO.input "Enter choice (1-4): " ;;
   let choice := Str.strip line in
   if String.eqb choice "1" then
     IO.print "Detecting mood from webcam... (look at camera)" ;;
     mood <- WebcamMoodDetector.detect_mood w false 12 ;;
     match mood with
     | None | Some EmptyString =>
         IO.print "Could not detect mood from webcam." ;;
         IO.ret Again
     | Some mood =>
         IO.print ("Detected mood: " +:+ mood) ;;
         IO.ret (Mood mood)
     end
   else if String.eqb choice "2" then
     text <- IO.input ("Write how you feel (a few sentences):" +:+ nl) ;;
     let mood := Text.detect_mood (w_polarity w) text in
     IO.print ("Inferred mood from text: " +:+ mood) ;;
     IO.ret (Mood mood)
   else if String.eqb choice "3" then
     IO.print ("Available moods: " +:+ Str.join ", " (map fst MOOD_FOLDERS)) ;;
     line <- IO.input "Type mood: " ;;
     let mood := Str.lower (Str.strip line) in
     if negb (dict_mem mood MOOD_FOLDERS) then
       IO.print "Mood not recognized. Try again." ;;
       IO.ret Again
     else IO.ret (Mood mood)
   else if String.eqb choice "4" then
     IO.print "Goodbye!" ;;
     IO.ret Exit
   else
     IO.print "Invalid choice." ;;
     IO.ret Again)%io.

(** The [if play_choice == "2" and spotify_controller] statement. The
    local player of the handler may come after one that has drawn a
    track already, so it draws anew. *)
Definition route (w : world) (spotify_controller : bool)
           (play_choice mood : string) : IO.M unit :=
  if String.eqb play_choice "2" && spotify_controller then
    IO.try_except
      (uri_name <- SpotifyController.find_playlist_for_mood w mood ;;
       match uri_name with
       | None =>
           IO.print "No Spotify playlist found for mood. Falling back to local playback." ;;
           LocalMusicPlayer.play_random_for_mood w mood
       | Some (uri, name) =>
           IO.print ("Found playlist: " +:+ name +:+ " — starting playback...") ;;
           SpotifyController.start_playback_by_uri w uri ;;
           IO.print "Tip: Control playback in your Spotify app."
       end)%io
      (fun e =>
         IO.print ("Spotify playback error: " +:+ exn_str e) ;;
         IO.print "Falling back to local music." ;;
         LocalMusicPlayer.play_random_for_mood (LocalMusicPlayer.after_draw w) mood)%io
  else LocalMusicPlayer.play_random_for_mood w mood.

Definition playback (w : world) (spotify_controller : bool) (mood : string)
  : IO.M unit :=
  (IO.print (nl +:+ "Playback options:") ;;
   IO.print "1) Play local music (default)" ;;
   (if spotify_controller then IO.print "2) Try Spotify playlists" else IO.ret tt) ;;
   line <- IO.input "Choose (1 or 2): " ;;
   let play_choice :=
     match Str.strip line with
     | EmptyString => "1"
     | s => s
     end in
   route w spotify_controller play_choice mood)%io.

(** One pass through the body of [while True]; [true] when the loop
    goes on. *)
Definition iteration (w : world) (spotify_controller : bool) : IO.M bool :=
  (a <- acquire w ;;
   match a with
   | Exit => IO.ret false
   | Again => IO.ret true
   | Mood mood => playback w spotify_controller mood ;; IO.ret true
   end)%io.

End Main.

(** ** Running a request *)

(** The result, the unread input and the events of [m] on input [ins]
    and a terminal [out]. *)
Definition run_on {A : Type} (out : IO.stdout) (m : IO.M A) (ins : list string)
  : res A * list string * list event := m out ins.

(** The same on a terminal that takes every line: no [print] raises. *)
Definition run {A : Type} (m : IO.M A) (ins : list string)
  : res A * list string * list event := run_on IO.accepting m ins.

(** [list_music_files] as a function of the world. *)
Definition catalog (w : world) (folder : string) : res (list string) :=
  if w_exists w folder
  then (entries <- w_iterdir w folder ;; Ok (map de_str (List.filter is_audio entries)))%res
  else Ok [].

(** ** The outcome of the specification

    The program prints what happens and returns nothing. [outcome_of]
    reads the specification's [PlaybackOutcome] off the events of a
    request: playback has started when a start call returned, and every
    failure message is a reason. *)

Module Spec.

Inductive outcome : Type :=
| Succeeded (b : backend) (what : string)
| AllFailed (reasons : list (backend * string)).

Definition failure_of (line : string) : option backend :=
  if String.eqb line "No Spotify playlist found for mood. Falling back to local playback."
  then Some Streaming
  else if Str.startswith "Spotify playback error: " line then Some Streaming
  else if Str.startswith "No folder mapped for mood: " line then Some Local
  else if Str.startswith "No music files found in " line then Some Local
  else if Str.startswith "Failed to play file: " line then Some Local
  else None.

Fixpoint reasons (evs : list event) : list (backend * string) :=
  match evs with
  | [] => []
  | EPrint line :: evs' =>
      match failure_of line with
      | Some b => (b, line) :: reasons evs'
      | None => reasons evs'
      end
  | _ :: evs' => reasons evs'
  end.

(** The first start of playback, if any. *)
Fixpoint started (evs : list event) : option (backend * string) :=
  match evs with
  | [] => None
  | ECall (SpStartPlayback _ uri) true :: _ => Some (Streaming, uri)
  | ECall (MixerPlay filepath) true :: _ => Some (Local, filepath)
  | _ :: evs' => started evs'
  end.

Definition outcome_of (evs : list event) : outcome :=
  match started evs with
  | Some (b, what) => Succeeded b what
  | None => AllFailed (reasons evs)
  end.


Definition is_attempt (ev : event) : bool :=
  match ev with
  | EAttempt _ => true
  | _ => false
  end.



(** The search answers and finds no playlist. *)
Definition search_not_found (w : world) (mood : string) : Prop :=
  match w_search w (mood +:+ " playlist") with
  | Raise _ => False
  | Ok results =>
      match sr_playlists results with
      | Some (Some (_ :: _)) => False
      | _ => True
      end
  end.

(** The [(device_id, context_uri)] of every start request, in order. *)
Fixpoint start_requests (evs : list event) : list (string * string) :=
  match evs with
  | [] => []
  | ECall (SpStartPlayback device_id uri) _ :: evs' =>
      (device_id, uri) :: start_requests evs'
  | _ :: evs' => start_requests evs'
  end.

Definition streaming_started (evs : list event) : bool :=
  existsb (fun ev => match ev with
                     | ECall (SpStartPlayback _ _) true => true
                     | _ => false
                     end) evs.

Definition local_attempted (evs : list event) : bool :=
  existsb (fun ev => match ev with
                     | EAttempt Local => true
                     | _ => false
                     end) evs.

Definition is_local_start (ev : event) : bool :=
  match ev with
  | ECall (MixerPlay _) true => true
  | _ => false
  end.

Definition is_streaming_start (ev : event) : bool :=
  match ev with
  | ECall (SpStartPlayback _ _) true => true
  | _ => false
  end.

Definition is_streaming_attempt (ev : event) : bool :=
  match ev with
  | EAttempt Streaming => true
  | _ => false
  end.

(** No event that satisfies [q] comes after one that satisfies [p]. *)
Fixpoint none_after (p q : event -> bool) (evs : list event) : bool :=
  match evs with
  | [] => true
  | ev :: evs' =>
      (if p ev then forallb (fun e => negb (q e)) evs' else true)
      && none_after p q evs'
  end.

End Spec.

(** ** Sample worlds *)

Module Sample.

Definition no_answer {A : Type} : res A := Raise (LibraryError "unavailable").

(** No camera, no network, no music. *)
Definition silent : world :=
  {| w_set_iter := Webcam.order_nodup;
     w_cam_opened := false;
     w_cam_reads := [];
     w_polarity := fun _ => S754_zero false;
     w_search := fun _ => no_answer;
     w_devices := no_answer;
     w_start_playback := fun _ _ => no_answer;
     w_exists := fun _ => false;
     w_iterdir := fun _ => Ok [];
     w_random := 0;
     w_redraw := 0;
     w_mixer_load := fun _ => Ok tt;
     w_mixer_play := fun _ => Ok tt;
     w_busy_polls := 0 |}.

Definition with_search (w : world) (f : string -> res search_result) : world :=
  {| w_set_iter := w_set_iter w; w_cam_opened := w_cam_opened w;
     w_cam_reads := w_cam_reads w; w_polarity := w_polarity w;
     w_search := f; w_devices := w_devices w;
     w_start_playback := w_start_playback w; w_exists := w_exists w;
     w_iterdir := w_iterdir w; w_random := w_random w;
     w_redraw := w_redraw w;
     w_mixer_load := w_mixer_load w; w_mixer_play := w_mixer_play w;
     w_busy_polls := w_busy_polls w |}.

Definition with_devices (w : world) (d : res devices_result)
           (start : string -> string -> res unit) : world :=
  {| w_set_iter := w_set_iter w; w_cam_opened := w_cam_opened w;
     w_cam_reads := w_cam_reads w; w_polarity := w_polarity w;
     w_search := w_search w; w_devices := d;
     w_start_playback := start; w_exists := w_exists w;
     w_iterdir := w_iterdir w; w_random := w_random w;
     w_redraw := w_redraw w;
     w_mixer_load := w_mixer_load w; w_mixer_play := w_mixer_play w;
     w_busy_polls := w_busy_polls w |}.

Definition with_folder (w : world) (entries : list dir_entry) : world :=
  {| w_set_iter := w_set_iter w; w_cam_opened := w_cam_opened w;
     w_cam_reads := w_cam_reads w; w_polarity := w_polarity w;
     w_search := w_search w; w_devices := w_devices w;
     w_start_playback := w_start_playback w; w_exists := fun _ => true;
     w_iterdir := fun _ => Ok entries; w_random := w_random w;
     w_redraw := w_redraw w;
     w_mixer_load := w_mixer_load w; w_mixer_play := w_mixer_play w;
     w_busy_polls := w_busy_polls w |}.

Definition with_mixer (w : world) (load play : string -> res unit) : world :=
  {| w_set_iter := w_set_iter w; w_cam_opened := w_cam_opened w;
     w_cam_reads := w_cam_reads w; w_polarity := w_polarity w;
     w_search := w_search w; w_devices := w_devices w;
     w_start_playback := w_start_playback w; w_exists := w_exists w;
     w_iterdir := w_iterdir w; w_random := w_random w;
     w_redraw := w_redraw w;
     w_mixer_load := load; w_mixer_play := play;
     w_busy_polls := w_busy_polls w |}.

Definition with_camera (w : world) (reads : list cam_read) : world :=
  {| w_set_iter := w_set_iter w; w_cam_opened := true;
     w_cam_reads := reads; w_polarity := w_polarity w;
     w_search := w_search w; w_devices := w_devices w;
     w_start_playback := w_start_playback w; w_exists := w_exists w;
     w_iterdir := w_iterdir w; w_random := w_random w;
     w_redraw := w_redraw w;
     w_mixer_load := w_mixer_load w; w_mixer_play := w_mixer_play w;
     w_busy_polls := w_busy_polls w |}.

Definition not_found : res search_result :=
  Ok {| sr_playlists := Some (Some []) |}.

Definition found : res search_result :=
  Ok {| sr_playlists :=
          Some (Some [ {| pl_uri := "spotify:playlist:1"; pl_name := "Happy Hits" |};
                       {| pl_uri := "spotify:playlist:2"; pl_name := "Feel Good" |} ]) |}.

Definition two_devices : res devices_result :=
  Ok {| dr_devices := Some [ {| dev_id := "d1"; dev_name := "Laptop" |};
                             {| dev_id := "d2"; dev_name := "Phone" |} ] |}.

Definition happy_folder : list dir_entry :=
  [ {| de_str := "music/happy/README.txt"; de_suffix := ".txt" |};
    {| de_str := "music/happy/a.MP3"; de_suffix := ".MP3" |};
    {| de_str := "music/happy/b.ogg"; de_suffix := ".ogg" |} ].

(** The search finds a playlist and playback starts on a device. *)
Definition streaming_ok : world :=
  with_devices (with_search silent (fun _ => found)) two_devices (fun _ _ => Ok tt).

(** The search finds nothing and the happy folder holds two tracks. *)
Definition local_ok : world :=
  with_folder (with_search silent (fun _ => not_found)) happy_folder.

(** As [local_ok], with an audio engine that rejects every file. *)
Definition local_unplayable : world :=
  with_mixer local_ok (fun _ => Raise (LibraryError "Unrecognized audio format"))
             (fun _ => Ok tt).

(** The tree of a first bootstrap in an empty directory. *)
Definition after_bootstrap : gmap FS.path FS.node :=
  match FS.ensure_music_folders ∅ with
  | Ok t => t
  | Raise _ => ∅
  end.

(** The same tree after the user has added a track. *)
Definition with_song : gmap FS.path FS.node :=
  <[ ["music"; "happy"; "song.mp3"] := FS.File "ID3" ]> after_bootstrap.

(** The search finds nothing and the mood folders cannot be listed. *)
Definition unreadable : world :=
  {| w_set_iter := Webcam.order_nodup;
     w_cam_opened := false;
     w_cam_reads := [];
     w_polarity := fun _ => S754_zero false;
     w_search := fun _ => not_found;
     w_devices := no_answer;
     w_start_playback := fun _ _ => no_answer;
     w_exists := fun _ => true;
     w_iterdir := fun _ => Raise (NotADirectoryError "Not a directory");
     w_random := 0;
     w_redraw := 0;
     w_mixer_load := fun _ => Ok tt;
     w_mixer_play := fun _ => Ok tt;
     w_busy_polls := 0 |}.


(** The UTF-8 bytes of U+1F3A7, a headphone. *)
Definition headphone : string :=
  String "240"%char (String "159"%char (String "142"%char (String "167"%char EmptyString))).

(** A terminal in cp1252: it has no code for a character outside the
    Basic Multilingual Plane, which is four bytes with a first byte of 240
    or more in the UTF-8 of a line. *)
Definition cp1252 : IO.stdout :=
  fun line =>
    if existsb (fun c => 240 <=? nat_of_ascii c) (String.list_ascii_of_string line)
    then Raise (UnicodeEncodeError "character maps to <undefined>")
    else Ok tt.


(** As [local_ok], with a first track that has a headphone in its name. *)
Definition local_headphone : world :=
  with_folder (with_search silent (fun _ => not_found))
    [ {| de_str := "music/happy/" +:+ headphone +:+ ".mp3"; de_suffix := ".mp3" |};
      {| de_str := "music/happy/b.ogg"; de_suffix := ".ogg" |} ].

End Sample.

(** ** Start-up and the loop *)

Module Startup.





(** [while True] of [main], one world for each pass. The result is
    [true] when the loop was left by [break] and [false] when the worlds
    ran out first. *)
Fixpoint while_true (worlds : list world) (spotify_controller : bool) : IO.M bool :=
  match worlds with
  | [] => IO.ret false
  | w :: worlds' =>
      (go_on <- Main.iteration w spotify_controller ;;
       if go_on then while_true worlds' spotify_controller else IO.ret true)%io
  end.

End Startup.

(** ** Well-formed trees *)

(** Every stored node lies in a directory. *)
Definition well_formed (t : gmap FS.path FS.node) : Prop :=
  forall p n, t !! p = Some n -> p <> [] /\ FS.node_at t (FS.parent p) = Some FS.Dir.

(** ** Vocabulary of the further properties *)

(** The votes of a frame come from the first face the detector found in
    it. *)
Definition first_face_label (reads : list cam_read) (v : string) : Prop :=
  exists face others key,
    In (ReadOk (face :: others) key) reads /\ In v (map fst face).

(** An event of the streaming backend. *)
Definition is_spotify (ev : event) : bool :=
  match ev with
  | ECall (SpSearch _) _ | ECall SpDevices _ | ECall (SpStartPlayback _ _) _
  | EAttempt Streaming => true
  | _ => false
  end.

(** What the menu prints before it reads the choice. *)
Definition menu_events : list event :=
  [ EPrint (Main.nl +:+ "Choose input method:");
    EPrint "1) Webcam emotion detection";
    EPrint "2) Type your mood/journal (text sentiment)";
    EPrint "3) Manual mood selection";
    EPrint "4) Exit";
    EPrompt "Enter choice (1-4): " ].

(** A string that does not start with white space. *)
Definition no_leading_space (s : string) : Prop :=
  match s with
  | EmptyString => True
  | String c _ => Str.isspace c = false
  end.

(** * Properties *)

(** ** [max] with a key *)

Section MaxNat.
Context {A : Type} (key : A -> nat).

(** [max] returns the first item whose key is the greatest. *)
Lemma max_from_first (best : A) (rest : list A) :
  exists pre post,
    best :: rest = pre ++ Py.max_from Nat.ltb key best rest :: post /\
    (forall x, In x pre -> key x < key (Py.max_from Nat.ltb key best rest)) /\
    (forall x, In x post -> key x <= key (Py.max_from Nat.ltb key best rest)).
Proof.
  revert best. induction rest as [|x rest IH]; intros best; simpl.
  - exists [], []. repeat split; simpl; intros; tauto.
  - destruct (Nat.ltb_spec (key best) (key x)) as [Hlt|Hge].
    + destruct (IH x) as (pre & post & Heq & Hpre & Hpost).
      set (m := Py.max_from Nat.ltb key x rest) in *.
      assert (Hx : key x <= key m).
      { assert (Hin : In x (pre ++ m :: post)) by (rewrite <- Heq; now left).
        apply in_app_or in Hin. destruct Hin as [Hin|[->|Hin]].
        - apply Nat.lt_le_incl. now apply Hpre.
        - reflexivity.
        - now apply Hpost. }
      exists (best :: pre), post. repeat split.
      * simpl. now rewrite Heq.
      * intros y [->|Hy]; [lia | now apply Hpre].
      * exact Hpost.
    + destruct (IH best) as (pre & post & Heq & Hpre & Hpost).
      set (m := Py.max_from Nat.ltb key best rest) in *.
      destruct pre as [|b pre].
      * simpl in Heq. injection Heq as Hb Hrest.
        exists [], (x :: post). repeat split.
        -- simpl. now rewrite <- Hb, Hrest.
        -- intros y [].
        -- intros y [->|Hy]; [rewrite <- Hb; lia | now apply Hpost].
      * simpl in Heq. injection Heq as Hb Hrest. subst b.
        exists (best :: x :: pre), post. repeat split.
        -- simpl. now rewrite Hrest.
        -- intros y [->|[->|Hy]].
           ++ apply Hpre. now left.
           ++ assert (key best < key m) by (apply Hpre; now left). lia.
           ++ apply Hpre. now right.
        -- exact Hpost.
Qed.
End MaxNat.

(** ** The vote *)

Lemma nodup_nonempty (l : list string) :
  l <> [] -> nodup String.string_dec l <> [].
Proof.
  destruct l as [|x l]; [congruence|]. intros _ Hnil.
  assert (Hin : In x (nodup String.string_dec (x :: l))) by (apply nodup_In; now left).
  rewrite Hnil in Hin. destruct Hin.
Qed.

Lemma set_order_nonempty (set_iter : list string -> list string) (l : list string) :
  Webcam.set_order set_iter -> l <> [] -> set_iter l <> [].
Proof.
  intros Hord Hl Hnil. specialize (Hord l). rewrite Hnil in Hord.
  apply Permutation_nil in Hord. now apply (nodup_nonempty l).
Qed.

Lemma set_order_In (set_iter : list string -> list string) (l : list string) (x : string) :
  Webcam.set_order set_iter -> (In x (set_iter l) <-> In x l).
Proof.
  intros Hord. split; intros H.
  - apply (nodup_In String.string_dec). eapply Permutation_in; [apply Hord | exact H].
  - eapply Permutation_in; [apply Permutation_sym, Hord|]. now apply nodup_In.
Qed.

Lemma order_nodup_ok : Webcam.set_order Webcam.order_nodup.
Proof. intros l. apply Permutation_refl. Qed.

Lemma order_rev_ok : Webcam.set_order Webcam.order_rev.
Proof. intros l. apply Permutation_sym, Permutation_rev. Qed.

(** What [aggregate] returns on a non-empty list, for any admissible
    iteration order. *)
Lemma aggregate_first_max (set_iter : list string -> list string) (votes : list string) :
  Webcam.set_order set_iter -> votes <> [] ->
  exists m pre post,
    Webcam.aggregate set_iter votes = Ok (Some m) /\
    set_iter votes = pre ++ m :: post /\
    (forall x, In x pre -> Py.count votes x < Py.count votes m) /\
    (forall x, Py.count votes x <= Py.count votes m).
Proof.
  intros Hord Hne.
  pose proof (set_order_nonempty set_iter votes Hord Hne) as Hset.
  unfold Webcam.aggregate. destruct votes as [|v votes']; [congruence|].
  set (votes := v :: votes') in *.
  destruct (set_iter votes) as [|b rest] eqn:Hs; [congruence|]. simpl.
  destruct (max_from_first (Py.count votes) b rest) as (pre & post & Heq & Hpre & Hpost).
  set (m := Py.max_from Nat.ltb (Py.count votes) b rest) in *.
  exists m, pre, post. repeat split; try assumption.
  intros x. change (Py.count votes x <= Py.count votes m).
  destruct (in_dec String.string_dec x votes) as [Hin|Hnin].
  - apply (set_order_In set_iter votes x Hord) in Hin. rewrite Hs, Heq in Hin.
    apply in_app_or in Hin. destruct Hin as [Hin|[->|Hin]].
    + apply Nat.lt_le_incl. now apply Hpre.
    + reflexivity.
    + now apply Hpost.
  - assert (H0 : Py.count votes x = 0) by (now apply count_occ_not_In).
    rewrite H0. lia.
Qed.

(** C1 (amended). For every admissible iteration order of
    [set(emotion_votes)] and every non-empty vote sequence, [aggregate]
    returns a label of maximum frequency, and among the labels tied for
    the maximum the one that comes first in that iteration order, not the
    one that comes first in the votes. On [[a; b; a; b]] it returns [a]
    when the set iterates [a] before [b] and [b] otherwise. *)
Theorem aggregate_tie_break_by_set_order (set_iter : list string -> list string) :
  Webcam.set_order set_iter ->
  (forall votes, votes <> [] ->
     exists m pre post,
       Webcam.aggregate set_iter votes = Ok (Some m) /\
       set_iter votes = pre ++ m :: post /\
       (forall x, In x pre -> Py.count votes x < Py.count votes m) /\
       (forall x, Py.count votes x <= Py.count votes m)) /\
  (forall a b, a <> b ->
     (set_iter [a; b; a; b] = [a; b] /\
      Webcam.aggregate set_iter [a; b; a; b] = Ok (Some a)) \/
     (set_iter [a; b; a; b] = [b; a] /\
      Webcam.aggregate set_iter [a; b; a; b] = Ok (Some b))).
Proof.
  intros Hord. split.
  - intros votes Hne. now apply aggregate_first_max.
  - intros a b Hab.
    assert (Hnd : nodup String.string_dec [a; b; a; b] = [a; b]).
    { simpl. repeat (destruct (String.string_dec _ _); try congruence; simpl);
        try tauto; repeat (destruct (in_dec _ _ _) as [Hi|Hi]; simpl in Hi; try tauto);
        try reflexivity; intuition congruence. }
    pose proof (Hord [a; b; a; b]) as Hp. rewrite Hnd in Hp.
    apply Permutation_sym, Permutation_length_2_inv in Hp.
    unfold Webcam.aggregate, Py.max, Py.count.
    destruct Hp as [Hp|Hp]; rewrite Hp; [left|right]; (split; [reflexivity|]); simpl;
      repeat (destruct (String.string_dec _ _); try congruence; simpl); reflexivity.
Qed.

Lemma aggregate_tie_break_by_set_order_witness :
  Webcam.set_order Webcam.order_nodup /\
  exists m pre post,
    Webcam.aggregate Webcam.order_nodup ["happy"; "sad"; "happy"; "sad"] = Ok (Some m) /\
    Webcam.order_nodup ["happy"; "sad"; "happy"; "sad"] = pre ++ m :: post /\
    (forall x, In x pre ->
       Py.count ["happy"; "sad"; "happy"; "sad"] x < Py.count ["happy"; "sad"; "happy"; "sad"] m) /\
    (forall x,
       Py.count ["happy"; "sad"; "happy"; "sad"] x <= Py.count ["happy"; "sad"; "happy"; "sad"] m).
Proof.
  split; [exact order_nodup_ok|].
  apply (proj1 (aggregate_tie_break_by_set_order Webcam.order_nodup order_nodup_ok)).
  discriminate.
Defined.

(** C1 as stated fails. A set of strings iterates in the order of their
    hashes, which changes from run to run; when it iterates ["sad"]
    before ["happy"], the vote happy, sad, happy, sad yields ["sad"], the
    label that was met second. *)
Lemma aggregate_tie_not_first_encountered :
  Webcam.set_order Webcam.order_rev /\
  Webcam.aggregate Webcam.order_rev ["happy"; "sad"; "happy"; "sad"] = Ok (Some "sad") /\
  Webcam.aggregate Webcam.order_rev ["happy"; "sad"; "happy"; "sad"] <> Ok (Some "happy").
Proof.
  split; [exact order_rev_ok|]. split; [vm_compute; reflexivity|].
  vm_compute. discriminate.
Qed.

(** C8. For every admissible iteration order, [aggregate] on a non-empty
    vote sequence returns a label that occurs in the sequence, and on a
    single vote it returns that vote. *)
Theorem aggregate_returns_a_vote (set_iter : list string -> list string) :
  Webcam.set_order set_iter ->
  (forall votes, votes <> [] ->
     exists m, Webcam.aggregate set_iter votes = Ok (Some m) /\ In m votes) /\
  (forall v, Webcam.aggregate set_iter [v] = Ok (Some v)).
Proof.
  intros Hord.
  assert (Hin : forall votes, votes <> [] ->
            exists m, Webcam.aggregate set_iter votes = Ok (Some m) /\ In m votes).
  { intros votes Hne.
    destruct (aggregate_first_max set_iter votes Hord Hne) as (m & pre & post & Hm & Hs & _).
    exists m. split; [exact Hm|].
    apply (set_order_In set_iter votes m Hord). rewrite Hs.
    apply in_or_app. right. now left. }
  split; [exact Hin|].
  intros v. destruct (Hin [v]) as (m & Hm & [<-|[]]); [discriminate|exact Hm].
Qed.

Lemma aggregate_returns_a_vote_witness :
  Webcam.set_order Webcam.order_rev /\
  Webcam.aggregate Webcam.order_rev ["fear"] = Ok (Some "fear").
Proof.
  split; [exact order_rev_ok|].
  apply (proj2 (aggregate_returns_a_vote Webcam.order_rev order_rev_ok)).
Defined.

(** ** The polarity thresholds *)

Lemma digits2_pos_bounds (m : positive) :
  (2 ^ (Zpos (digits2_pos m) - 1) <= Zpos m < 2 ^ Zpos (digits2_pos m))%Z.
Proof.
  induction m as [m IH|m IH|]; simpl digits2_pos.
  - rewrite Pos2Z.inj_succ.
    replace (Z.succ (Zpos (digits2_pos m)) - 1)%Z with (Zpos (digits2_pos m)) by lia.
    rewrite Z.pow_succ_r by lia.
    replace (2 ^ Zpos (digits2_pos m))%Z
      with (2 * 2 ^ (Zpos (digits2_pos m) - 1))%Z in *
      by (rewrite <- Z.pow_succ_r by lia; f_equal; lia).
    lia.
  - rewrite Pos2Z.inj_succ.
    replace (Z.succ (Zpos (digits2_pos m)) - 1)%Z with (Zpos (digits2_pos m)) by lia.
    rewrite Z.pow_succ_r by lia.
    replace (2 ^ Zpos (digits2_pos m))%Z
      with (2 * 2 ^ (Zpos (digits2_pos m) - 1))%Z in *
      by (rewrite <- Z.pow_succ_r by lia; f_equal; lia).
    lia.
  - simpl. lia.
Qed.


Lemma Qpower_two_scaled (M e : Z) : (inject_Z M * Qpower 2 e == Text.scaled M e)%Q.
Proof.
  destruct e as [|k|k]; unfold Text.scaled.
  - simpl. rewrite Z.mul_1_r. ring.
  - rewrite inject_Z_mult. apply Qmult_comp; [reflexivity|].
    rewrite Zpower_Qpower by lia. reflexivity.
  - simpl Qpower. change 2%Q with (2 # 1)%Q. rewrite Qpower_decomp_positive.
    assert (H1 : (1 ^ k)%positive = 1%positive).
    { apply Pos2Z.inj. rewrite Pos2Z.inj_pow. apply Z.pow_1_l. lia. }
    assert (H2 : (2 ^ Zpos k)%Z = Zpos (2 ^ k)) by (now rewrite Pos2Z.inj_pow).
    rewrite H1, H2. unfold Qeq, Qinv, Qmult, inject_Z. simpl. lia.
Qed.


Lemma canonical_digits (m : positive) (e : Z) :
  bounded 53 1024 m e = true ->
  (Zpos (digits2_pos m) <= 53)%Z /\ ((-1074 < e)%Z -> Zpos (digits2_pos m) = 53%Z).
Proof.
  unfold bounded, canonical_mantissa, fexp, emin. intros H.
  apply andb_prop in H. destruct H as [H _]. apply Z.eqb_eq in H. lia.
Qed.

(** A binary64 number whose exponent is above -54 is at least 1/2 in
    magnitude; one whose exponent is below -54 is below 1/4. *)
Lemma scaled_large (m : positive) (e : Z) :
  bounded 53 1024 m e = true -> (-54 < e)%Z -> (1 # 2 <= Text.scaled (Zpos m) e)%Q.
Proof.
  intros Hb He. destruct (canonical_digits m e Hb) as [_ Hd].
  pose proof (digits2_pos_bounds m) as Hm. rewrite Hd in Hm by lia.
  change (2 ^ (53 - 1))%Z with 4503599627370496%Z in Hm.
  destruct e as [|k|k]; unfold Text.scaled, Qle; simpl Qnum; simpl Qden.
  - lia.
  - assert (0 < 2 ^ Zpos k)%Z by (apply Z.pow_pos_nonneg; lia). nia.
  - assert (Hk : (Zpos (2 ^ k) <= 2 ^ 53)%Z).
    { rewrite Pos2Z.inj_pow. apply Z.pow_le_mono_r; lia. }
    change (2 ^ 53)%Z with 9007199254740992%Z in Hk. lia.
Qed.

Lemma scaled_small (m : positive) (e : Z) :
  bounded 53 1024 m e = true -> (e < -54)%Z -> (Text.scaled (Zpos m) e < 1 # 4)%Q.
Proof.
  intros Hb He. destruct (canonical_digits m e Hb) as [Hd _].
  pose proof (digits2_pos_bounds m) as [_ Hm].
  assert (Hm' : (Zpos m < 2 ^ 53)%Z).
  { eapply Z.lt_le_trans; [exact Hm|]. apply Z.pow_le_mono_r; lia. }
  change (2 ^ 53)%Z with 9007199254740992%Z in Hm'.
  destruct e as [|k|k]; try lia. unfold Text.scaled, Qlt; simpl Qnum; simpl Qden.
  assert (Hk : (2 ^ 55 <= Zpos (2 ^ k))%Z).
  { rewrite Pos2Z.inj_pow. apply Z.pow_le_mono_r; lia. }
  change (2 ^ 55)%Z with 36028797018963968%Z in Hk. lia.
Qed.

Lemma scaled_opp (m : positive) (e : Z) :
  (Text.scaled (Zneg m) e == - Text.scaled (Zpos m) e)%Q.
Proof.
  destruct e as [|k|k]; unfold Text.scaled, Qeq, Qopp, inject_Z; simpl Qnum; simpl Qden; lia.
Qed.






Lemma pow2_54 : Zpos (2 ^ 54) = 18014398509481984%Z.
Proof. vm_compute. reflexivity. Qed.

Lemma SFltb_finite_pos (d m : positive) (k e : Z) :
  SFltb (S754_finite false d k) (S754_finite false m e) =
  match Z.compare k e with
  | Lt => true
  | Gt => false
  | Eq => match Pos.compare d m with Lt => true | _ => false end
  end.
Proof.
  unfold SFltb, SFcompare. destruct (Z.compare k e); try reflexivity.
Qed.

Lemma SFltb_finite_neg (d m : positive) (k e : Z) :
  SFltb (S754_finite true m e) (S754_finite true d k) =
  match Z.compare e k with
  | Lt => false
  | Gt => true
  | Eq => match Pos.compare m d with Gt => true | _ => false end
  end.
Proof.
  unfold SFltb, SFcompare. destruct (Z.compare e k); try reflexivity.
  unfold Pos.compare. destruct (Pos.compare_cont Eq m d); reflexivity.
Qed.

Lemma above_threshold (m : positive) (e : Z) :
  bounded 53 1024 m e = true ->
  (SFltb Text.f0_3 (S754_finite false m e) = true <-> (3 # 10 < Text.scaled (Zpos m) e)%Q).
Proof.
  intros Hb. unfold Text.f0_3. rewrite SFltb_finite_pos.
  destruct (Z.compare_spec (-54) e) as [He|He|He].
  - subst e. clear Hb. unfold Text.scaled, Qlt. cbn [Qnum Qden]. rewrite pow2_54.
    destruct (Pos.compare_spec 5404319552844595 m) as [Hm|Hm|Hm].
    + subst m. split; intros H; [discriminate|].
      exfalso. revert H. apply Z.le_ngt. discriminate.
    + apply Pos2Z.pos_lt_pos in Hm. split; intros H; [lia|reflexivity].
    + apply Pos2Z.pos_lt_pos in Hm. split; intros H; [discriminate|]. exfalso. lia.
  - pose proof (scaled_large m e Hb He) as Hl. split; [intros _|reflexivity].
    eapply Qlt_le_trans; [|exact Hl]. reflexivity.
  - pose proof (scaled_small m e Hb He) as Hs. split; [discriminate|]. intros H.
    exfalso. apply (Qlt_irrefl (3 # 10)). eapply Qlt_trans; [exact H|].
    eapply Qlt_trans; [exact Hs|]. reflexivity.
Qed.

Lemma below_threshold (m : positive) (e : Z) :
  bounded 53 1024 m e = true ->
  (SFltb (S754_finite true m e) (SFopp Text.f0_3) = true
   <-> (Text.scaled (Zneg m) e < - (3 # 10))%Q).
Proof.
  intros Hb. rewrite scaled_opp. unfold Text.f0_3. cbn [SFopp negb].
  rewrite SFltb_finite_neg.
  destruct (Z.compare_spec e (-54)) as [He|He|He].
  - subst e. clear Hb. unfold Text.scaled, Qlt, Qopp. cbn [Qnum Qden]. rewrite pow2_54.
    destruct (Pos.compare_spec m 5404319552844595) as [Hm|Hm|Hm].
    + subst m. split; intros H; [discriminate|].
      exfalso. revert H. apply Z.le_ngt. discriminate.
    + apply Pos2Z.pos_lt_pos in Hm. split; intros H; [discriminate|]. exfalso. lia.
    + apply Pos2Z.pos_lt_pos in Hm. split; intros H; [lia|reflexivity].
  - pose proof (scaled_small m e Hb He) as Hs. split; [discriminate|]. intros H.
    exfalso. apply (Qlt_irrefl (3 # 10)).
    apply Qopp_lt_compat in H. do 2 rewrite Qopp_involutive in H.
    eapply Qlt_trans; [exact H|]. eapply Qlt_trans; [exact Hs|]. reflexivity.
  - pose proof (scaled_large m e Hb ltac:(lia)) as Hl. split; [intros _|reflexivity].
    apply Qopp_lt_compat. eapply Qlt_le_trans; [|exact Hl]. reflexivity.
Qed.

Lemma scaled_pos (m : positive) (e : Z) : (0 < Text.scaled (Zpos m) e)%Q.
Proof.
  destruct e as [|k|k]; unfold Text.scaled, Qlt, inject_Z; cbn [Qnum Qden].
  - lia.
  - assert (0 < 2 ^ Zpos k)%Z by (apply Z.pow_pos_nonneg; lia). nia.
  - lia.
Qed.

Lemma mood_of_positive (m : positive) (e : Z) :
  Text.mood_of_polarity (S754_finite false m e) =
  if SFltb Text.f0_3 (S754_finite false m e) then "happy" else "neutral".
Proof. reflexivity. Qed.

Lemma mood_of_negative (m : positive) (e : Z) :
  Text.mood_of_polarity (S754_finite true m e) =
  if SFltb (S754_finite true m e) (SFopp Text.f0_3) then "sad" else "neutral".
Proof. reflexivity. Qed.

Lemma mood_of_zero (s : bool) : Text.mood_of_polarity (S754_zero s) = "neutral".
Proof. reflexivity. Qed.

(** C2. For every binary64 polarity with real value [v], the mood is
    happy when [v > 3/10], sad when [v < -3/10] and neutral otherwise;
    the floats [0.3] and [-0.3] map to neutral; the map returns one of
    the three moods on every float. *)
Theorem polarity_thresholds :
  (forall p v, Text.binary64 p -> Text.SF2Q p = Some v ->
     ((3 # 10 < v)%Q -> Text.mood_of_polarity p = "happy") /\
     ((v < - (3 # 10))%Q -> Text.mood_of_polarity p = "sad") /\
     ((- (3 # 10) <= v)%Q /\ (v <= 3 # 10)%Q -> Text.mood_of_polarity p = "neutral")) /\
  Text.mood_of_polarity Text.f0_3 = "neutral" /\
  Text.mood_of_polarity (SFopp Text.f0_3) = "neutral" /\
  (forall p, Text.mood_of_polarity p = "happy" \/
             Text.mood_of_polarity p = "sad" \/
             Text.mood_of_polarity p = "neutral").
Proof.
  split; [|split; [|split]].
  - intros p v Hb Hv. destruct p as [s|s| |s m e]; simpl in Hv; try discriminate;
      injection Hv as <-.
    + rewrite mood_of_zero. repeat split; try reflexivity; intros H; now inversion H.
    + unfold Text.binary64, valid_binary in Hb.
      destruct s.
      * rewrite mood_of_negative.
        destruct (below_threshold m e Hb) as [H1 H2].
        pose proof (scaled_pos m e) as Hpos.
        pose proof (Qpower_two_scaled (Zneg m) e) as Heq.
        pose proof (scaled_opp m e) as Hopp.
        destruct (SFltb (S754_finite true m e) (SFopp Text.f0_3)).
        -- specialize (H1 eq_refl). rewrite <- Heq in H1.
           repeat split; try reflexivity.
           ++ intros H. exfalso. apply (Qlt_irrefl (3 # 10)).
              eapply Qlt_trans; [exact H|]. eapply Qlt_trans; [exact H1|]. reflexivity.
           ++ intros [H _]. exfalso. apply (Qlt_irrefl (- (3 # 10))).
              eapply Qle_lt_trans; [exact H|exact H1].
        -- repeat split; try reflexivity.
           ++ intros H. exfalso. rewrite Heq, Hopp in H.
              apply (Qlt_irrefl 0). eapply Qlt_trans; [exact Hpos|].
              apply Qopp_lt_compat in H. rewrite Qopp_involutive in H.
              eapply Qlt_trans; [exact H|]. reflexivity.
           ++ intros H. rewrite Heq in H. apply H2 in H. discriminate.
      * rewrite mood_of_positive.
        destruct (above_threshold m e Hb) as [H1 H2].
        pose proof (scaled_pos m e) as Hpos.
        pose proof (Qpower_two_scaled (Zpos m) e) as Heq.
        destruct (SFltb Text.f0_3 (S754_finite false m e)).
        -- specialize (H1 eq_refl). rewrite <- Heq in H1.
           repeat split; try reflexivity.
           ++ intros H. exfalso. apply (Qlt_irrefl (3 # 10)).
              eapply Qlt_trans; [exact H1|]. eapply Qlt_trans; [exact H|]. reflexivity.
           ++ intros [_ H]. exfalso. apply (Qlt_irrefl (3 # 10)).
              eapply Qlt_le_trans; [exact H1|exact H].
        -- repeat split; try reflexivity.
           ++ intros H. rewrite Heq in H. apply H2 in H. discriminate.
           ++ intros H. exfalso. rewrite Heq in H.
              apply (Qlt_irrefl 0). eapply Qlt_trans; [exact Hpos|].
              eapply Qlt_trans; [exact H|]. reflexivity.
  - reflexivity.
  - reflexivity.
  - intros p. unfold Text.mood_of_polarity.
    destruct (SFltb Text.f0_3 p); [now left|].
    destruct (SFltb p (SFopp Text.f0_3)); [right; now left|right; now right].
Qed.


Lemma polarity_thresholds_witness :
  Text.binary64 Text.half /\ Text.mood_of_polarity Text.half = "happy".
Proof.
  split; [reflexivity|].
  apply (proj1 (proj1 polarity_thresholds Text.half _ eq_refl eq_refl)).
  vm_compute. reflexivity.
Defined.

(** ** Playback routing *)

Lemma wait_idle_run (n : nat) (out : IO.stdout) (ins : list string) :
  LocalMusicPlayer.wait_idle n out ins = (Ok tt, ins, []).
Proof. induction n; simpl; auto. Qed.

(** Unfold the request down to the answers of the collaborators, then
    split on each answer. *)
Ltac io_unfold :=
  cbv beta iota zeta delta
    [run run_on IO.accepting Main.route SpotifyController.find_playlist_for_mood
     SpotifyController.start_playback_by_uri LocalMusicPlayer.play_random_for_mood
     LocalMusicPlayer.play_file list_music_files res_bind
     IO.try_except IO.bind IO.call IO.emit IO.print IO.ret IO.raise IO.lift
     IO.is_ok negb default from_option id app fst snd];
  cbn [LocalMusicPlayer.after_draw w_exists w_iterdir w_mixer_load w_mixer_play
       w_busy_polls].

Ltac io_case :=
  match goal with
  | |- context [match ?x with _ => _ end] =>
      lazymatch x with
      | context [match _ with _ => _ end] => fail
      | _ => destruct x eqn:?
      end
  end.

Ltac io_run :=
  io_unfold;
  repeat (first [rewrite wait_idle_run | io_case]; io_unfold).




(** What one pass over every answer of the collaborators and of the
    terminal shows of a routing request. *)
Lemma route_on_facts (out : IO.stdout) (w : world) (spotify_controller : bool)
      (play_choice mood : string) (ins : list string) :
  let r := run_on out (Main.route w spotify_controller play_choice mood) ins in
  snd (fst r) = ins /\
  (forall e,
     fst (fst r) = Raise e ->
     (exists folder, Py.get MOOD_FOLDERS mood = Some folder /\ catalog w folder = Raise e) \/
     (exists line, out line = Raise e)) /\
  Spec.none_after Spec.is_local_start Spec.is_attempt (snd r) = true /\
  Spec.none_after Spec.is_streaming_start Spec.is_streaming_attempt (snd r) = true /\
  ((Spec.none_after Spec.is_streaming_start Spec.is_attempt (snd r) = true /\
    (Spec.streaming_started (snd r) = true -> Spec.local_attempted (snd r) = false)) \/
   exists devices first others,
     w_devices w = Ok devices /\ dr_devices devices = Some (first :: others) /\
     IO.is_ok (out ("Playback started on device: " +:+ dev_name first))
     && IO.is_ok (out "Tip: Control playback in your Spotify app.") = false).
Proof.
  destruct (Py.get MOOD_FOLDERS mood) as [folder|] eqn:Hfolder;
    unfold Main.route, LocalMusicPlayer.play_random_for_mood; rewrite Hfolder;
    io_run; (split; [reflexivity|]);
    (split;
     [intros err He; try discriminate He; injection He as <-;
      first
        [ right; eexists; eassumption
        | left; exists folder; (split; [reflexivity|]); unfold catalog;
          repeat match goal with
                 | H : w_exists _ _ = _ |- _ => rewrite H; clear H
                 | H : w_iterdir _ _ = _ |- _ => rewrite H; clear H
                 end; reflexivity ]
     |]);
    (split; [reflexivity|]); (split; [reflexivity|]);
    first
      [ left; (split; [reflexivity|]); cbv; intros H; first [reflexivity | discriminate H]
      | right; subst; do 3 eexists;
        (split; [first [reflexivity | eassumption]|]);
        (split; [first [reflexivity | eassumption]|]);
        repeat match goal with H : out _ = _ |- _ => rewrite H end;
        first [reflexivity | apply andb_false_r] ].
Qed.






Lemma random_choice_In (w : world) (files : list string) :
  files <> [] -> In (LocalMusicPlayer.random_choice w files) files.
Proof.
  intros Hne. unfold LocalMusicPlayer.random_choice. apply nth_In.
  apply Nat.mod_upper_bound. destruct files; [congruence|discriminate].
Qed.

(** C5 (amended). With Spotify chosen and available, when the search
    finds no playlist and the folder of the mood holds audio files: on
    every terminal, every file handed to the audio engine is one of those
    files. When the terminal takes the line that reports the missing
    playlist and the line that names the track, the local player is
    entered, draws a track from those files and hands it to the audio
    engine; the request returns normally with a success of the local
    backend with that track when the engine loads and starts it, and,
    when the engine refuses it and the failure is printed, with that
    failure as the reason of the local backend. *)
Theorem route_falls_through_to_local (out : IO.stdout) (w : world) (mood folder : string)
        (files : list string) (ins : list string) :
  Py.get MOOD_FOLDERS mood = Some folder ->
  Spec.search_not_found w mood ->
  catalog w folder = Ok files ->
  files <> [] ->
  let track := LocalMusicPlayer.random_choice w files in
  let r := run_on out (Main.route w true "2" mood) ins in
  In track files /\
  (forall f ok, In (ECall (MixerLoad f) ok) (snd r) -> In f files) /\
  (out "No Spotify playlist found for mood. Falling back to local playback." = Ok tt ->
   out ("Playing: " +:+ track) = Ok tt ->
   In (EAttempt Local) (snd r) /\
   In (ECall (MixerLoad track) (IO.is_ok (w_mixer_load w track))) (snd r) /\
   (IO.is_ok (w_mixer_load w track) = true ->
    IO.is_ok (w_mixer_play w track) = true ->
    fst r = (Ok tt, ins) /\ Spec.outcome_of (snd r) = Spec.Succeeded Local track) /\
   (forall e,
      w_mixer_load w track = Raise e \/
      (IO.is_ok (w_mixer_load w track) = true /\ w_mixer_play w track = Raise e) ->
      out ("Failed to play file: " +:+ exn_str e) = Ok tt ->
      fst r = (Ok tt, ins) /\
      Spec.outcome_of (snd r)
      = Spec.AllFailed
          [(Streaming, "No Spotify playlist found for mood. Falling back to local playback.");
           (Local, "Failed to play file: " +:+ exn_str e)])).
Proof.
  intros Hfolder Hs Hc Hne track r. split; [now apply random_choice_In|].
  assert (Hfiles : w_exists w folder = true /\
                   exists entries, w_iterdir w folder = Ok entries /\
                                   map de_str (List.filter is_audio entries) = files).
  { unfold catalog in Hc. destruct (w_exists w folder); [split; [reflexivity|]|].
    - destruct (w_iterdir w folder) as [entries|e]; [|discriminate].
      exists entries. split; [reflexivity|]. now injection Hc.
    - injection Hc as <-. congruence. }
  destruct Hfiles as (Hex & entries & Hit & Hmap). clear Hc.
  pose proof (random_choice_In w files Hne) as Hin1.
  pose proof (random_choice_In (LocalMusicPlayer.after_draw w) files Hne) as Hin2.
  revert Hs. subst r. unfold Spec.search_not_found, Main.route, LocalMusicPlayer.play_random_for_mood.
  rewrite Hfolder. cbn [String.eqb Ascii.eqb Bool.eqb andb].
  io_unfold. rewrite Hex, Hit. io_unfold. rewrite Hmap.
  destruct files as [|f0 fs]; [congruence|]. subst track.
  revert Hin1 Hin2.
  generalize (LocalMusicPlayer.random_choice w (f0 :: fs)) as track.
  generalize (LocalMusicPlayer.random_choice (LocalMusicPlayer.after_draw w) (f0 :: fs))
    as track2.
  generalize (f0 :: fs) as files. clear Hmap Hne f0 fs.
  intros files track2 track Hin1 Hin2.
  io_run; intros Hs; try contradiction;
    (split;
     [intros f ok Hin; cbn [In] in Hin;
      repeat (destruct Hin as [Hin|Hin];
              [first [discriminate Hin | injection Hin as <- _; assumption]|]);
      destruct Hin|]);
    intros H1 H2;
    first
      [ discriminate H1
      | discriminate H2
      | (split; [cbn; tauto|]); (split; [cbn; tauto|]);
        split;
        [ intros Hl Hp;
          first [discriminate Hl | discriminate Hp | split; [reflexivity|cbv; reflexivity]]
        | intros err [He|[Hl He]] Hf;
          first [discriminate He | discriminate Hl | discriminate Hf
                | injection He as <-;
                  first [ exfalso; congruence
                        | split; [reflexivity|cbv; reflexivity] ] ] ] ].
Qed.

Lemma route_falls_through_to_local_witness :
  fst (run_on IO.accepting (Main.route Sample.local_ok true "2" "happy") []) = (Ok tt, []) /\
  Spec.outcome_of (snd (run_on IO.accepting (Main.route Sample.local_ok true "2" "happy") []))
  = Spec.Succeeded Local "music/happy/a.MP3".
Proof.
  destruct (route_falls_through_to_local IO.accepting Sample.local_ok "happy" "music/happy"
              ["music/happy/a.MP3"; "music/happy/b.ogg"] [])
    as (_ & _ & H).
  - reflexivity.
  - exact I.
  - reflexivity.
  - discriminate.
  - destruct (H eq_refl eq_refl) as (_ & _ & Hok & _). apply Hok; reflexivity.
Defined.

(** C5 as stated fails: the folder holds tracks and the local backend is
    tried, but the audio engine rejects the file, so nothing plays. *)
Lemma route_local_track_unplayable :
  Spec.search_not_found Sample.local_unplayable "happy" /\
  catalog Sample.local_unplayable "music/happy"
  = Ok ["music/happy/a.MP3"; "music/happy/b.ogg"] /\
  Spec.outcome_of (snd (run (Main.route Sample.local_unplayable true "2" "happy") []))
  = Spec.AllFailed
      [(Streaming, "No Spotify playlist found for mood. Falling back to local playback.");
       (Local, "Failed to play file: Unrecognized audio format")].
Proof. split; [exact I|]. split; vm_compute; reflexivity. Qed.

Lemma start_requests_first (w : world) (uri : string) (first : device)
      (others : list device) (ins : list string) :
  w_devices w = Ok {| dr_devices := Some (first :: others) |} ->
  Spec.start_requests (snd (run (SpotifyController.start_playback_by_uri w uri) ins))
  = [(dev_id first, uri)].
Proof.
  intros Hd. unfold run, SpotifyController.start_playback_by_uri.
  io_unfold. rewrite Hd. cbn [dr_devices]. io_run; reflexivity.
Qed.

(** C10. When the device listing is non-empty, the only start request
    of [start_playback_by_uri] names the first listed device, also when it
    is reached through the routing, and it is the same for every world
    with the same listing. *)
Theorem playback_starts_on_first_device (w : world) (uri : string) (first : device)
        (others : list device) (ins : list string) :
  w_devices w = Ok {| dr_devices := Some (first :: others) |} ->
  Spec.start_requests (snd (run (SpotifyController.start_playback_by_uri w uri) ins))
  = [(dev_id first, uri)] /\
  (forall mood top more,
     w_search w (mood +:+ " playlist") = Ok {| sr_playlists := Some (Some (top :: more)) |} ->
     Spec.start_requests (snd (run (Main.route w true "2" mood) ins))
     = [(dev_id first, pl_uri top)]) /\
  (forall w' ins',
     w_devices w' = w_devices w ->
     Spec.start_requests (snd (run (SpotifyController.start_playback_by_uri w' uri) ins'))
     = Spec.start_requests (snd (run (SpotifyController.start_playback_by_uri w uri) ins))).
Proof.
  intros Hd. split; [|split].
  - now apply start_requests_first with (others := others).
  - intros mood top more Hsearch.
    remember (Py.get MOOD_FOLDERS mood) as folder eqn:Hfolder.
    unfold Main.route, LocalMusicPlayer.play_random_for_mood. rewrite <- Hfolder.
    cbn [String.eqb Ascii.eqb Bool.eqb andb].
    io_unfold. rewrite Hsearch. cbn [sr_playlists]. io_unfold.
    rewrite Hd. cbn [dr_devices]. io_run; reflexivity.
  - intros w' ins' Hw'. rewrite Hd in Hw'.
    rewrite (start_requests_first w' uri first others ins' Hw').
    now rewrite (start_requests_first w uri first others ins Hd).
Qed.

Lemma playback_starts_on_first_device_witness :
  Spec.start_requests
    (snd (run (SpotifyController.start_playback_by_uri Sample.streaming_ok "spotify:playlist:1") []))
  = [("d1", "spotify:playlist:1")].
Proof.
  exact (proj1 (playback_starts_on_first_device Sample.streaming_ok "spotify:playlist:1"
                  {| dev_id := "d1"; dev_name := "Laptop" |}
                  [ {| dev_id := "d2"; dev_name := "Phone" |} ] [] eq_refl)).
Defined.

(** ** The menu *)

Lemma dict_mem_moods (mood : string) :
  dict_mem mood MOOD_FOLDERS = true <-> In mood moods.
Proof.
  unfold dict_mem, MOOD_FOLDERS, moods. cbn [Py.get In].
  repeat match goal with
         | |- context [String.eqb ?a mood] =>
             destruct (String.eqb_spec a mood); [split; [intros _; tauto|reflexivity]|]
         end.
  split; [discriminate|]. intuition congruence.
Qed.

Ltac menu_unfold :=
  cbv beta iota zeta delta
    [run run_on IO.accepting Main.acquire Main.iteration WebcamMoodDetector.detect_mood
     IO.try_except IO.bind IO.call IO.emit IO.print IO.ret IO.raise IO.lift IO.input
     IO.is_ok app fst snd].

(** C6. On choice 3 the typed line is stripped and lowercased; the
    mood is accepted exactly when the result is one of the seven moods,
    and otherwise the loop prints its refusal and starts over, with no
    playback. ["HAPPY "] resolves to happy and ["excited"] is refused. *)
Theorem manual_mood_resolution (w : world) (spotify_controller : bool)
        (choice line : string) (rest : list string) :
  Str.strip choice = "3" ->
  let mood := Str.lower (Str.strip line) in
  (In mood moods ->
   exists evs,
     run (Main.acquire w) (choice :: line :: rest) = (Ok (Main.Mood mood), rest, evs)) /\
  (~ In mood moods ->
   exists evs,
     run (Main.acquire w) (choice :: line :: rest)
     = (Ok Main.Again, rest, evs ++ [EPrint "Mood not recognized. Try again."]) /\
     run (Main.iteration w spotify_controller) (choice :: line :: rest)
     = (Ok true, rest, evs ++ [EPrint "Mood not recognized. Try again."])) /\
  Str.lower (Str.strip "HAPPY ") = "happy" /\ In "happy" moods /\
  ~ In (Str.lower (Str.strip "excited")) moods.
Proof.
  intros Hc mood. split; [|split; [|split; [|split]]].
  - intros Hin. apply dict_mem_moods in Hin. fold mood in Hin.
    menu_unfold. rewrite Hc. cbn [String.eqb Ascii.eqb Bool.eqb].
    fold mood. rewrite Hin. cbn [negb]. eexists. reflexivity.
  - intros Hnin. assert (Hm : dict_mem mood MOOD_FOLDERS = false).
    { destruct (dict_mem mood MOOD_FOLDERS) eqn:E; [|reflexivity].
      apply dict_mem_moods in E. contradiction. }
    menu_unfold. rewrite Hc. cbn [String.eqb Ascii.eqb Bool.eqb].
    fold mood. rewrite Hm. cbn [negb].
    eexists (_ :: _ :: _ :: _ :: _ :: _ :: _ :: _ :: []). split; reflexivity.
  - reflexivity.
  - unfold moods. cbn. tauto.
  - vm_compute. intuition discriminate.
Qed.

Lemma manual_mood_resolution_witness :
  Str.strip " 3 " = "3" /\
  exists evs,
    run (Main.acquire Sample.silent) [" 3 "; "HAPPY "; "1"] = (Ok (Main.Mood "happy"), ["1"], evs).
Proof.
  split; [reflexivity|].
  apply (proj1 (manual_mood_resolution Sample.silent false " 3 " "HAPPY " ["1"] eq_refl)).
  vm_compute. tauto.
Defined.

(** A camera that shows no face yields no vote. *)
Lemma capture_no_face (display : bool) (n : nat) (reads : list cam_read) :
  Forall (fun r => r = ReadFail \/ exists key, r = ReadOk [] key) reads ->
  WebcamMoodDetector.capture display n reads [] = Ok [].
Proof.
  revert reads. induction n as [|n IH]; intros reads Hall; [reflexivity|].
  destruct Hall as [|r reads [->|[key ->]] Hall]; try reflexivity.
  cbn. now apply IH.
Qed.

(** C7. [aggregate] returns [None] on the empty vote sequence; when the
    camera cannot be opened or yields no vote, choice 1 ends the pass
    with the message that no mood was detected: no mood is produced,
    neutral or other, and no backend is tried. *)
Theorem no_votes_no_mood :
  (forall set_iter, Webcam.aggregate set_iter [] = Ok None) /\
  (forall (w : world) (spotify_controller : bool) (choice : string) (rest : list string),
     Str.strip choice = "1" ->
     w_cam_opened w = false \/
     WebcamMoodDetector.capture false 12 (w_cam_reads w) [] = Ok [] ->
     exists evs,
       run (Main.acquire w) (choice :: rest)
       = (Ok Main.Again, rest, evs ++ [EPrint "Could not detect mood from webcam."]) /\
       run (Main.iteration w spotify_controller) (choice :: rest)
       = (Ok true, rest, evs ++ [EPrint "Could not detect mood from webcam."]) /\
       (forall b, ~ In (EAttempt b) evs) /\
       (forall line, In (EPrint line) evs ->
          Str.startswith "Detected mood: " line = false)).
Proof.
  split; [reflexivity|].
  intros w ctrl choice rest Hc Hcam.
  menu_unfold. rewrite Hc. cbn [String.eqb Ascii.eqb Bool.eqb].
  destruct (w_cam_opened w) eqn:Hopen.
  - destruct Hcam as [Hcam|Hcam]; [discriminate|]. rewrite Hcam.
    cbn [negb Webcam.aggregate]. menu_unfold.
    eexists (_ :: _ :: _ :: _ :: _ :: _ :: _ :: _ :: []).
    split; [reflexivity|]. split; [reflexivity|]. split.
    + intros b Hin. cbn in Hin. intuition discriminate.
    + intros line Hin. cbn in Hin.
      repeat (destruct Hin as [Hin|Hin]; [try discriminate; injection Hin as <-; reflexivity|]).
      destruct Hin.
  - cbn [negb]. menu_unfold.
    eexists (_ :: _ :: _ :: _ :: _ :: _ :: _ :: _ :: []).
    split; [reflexivity|]. split; [reflexivity|]. split.
    + intros b Hin. cbn in Hin. intuition discriminate.
    + intros line Hin. cbn in Hin.
      repeat (destruct Hin as [Hin|Hin]; [try discriminate; injection Hin as <-; reflexivity|]).
      destruct Hin.
Qed.

Lemma no_votes_no_mood_witness :
  exists evs,
    run (Main.iteration (Sample.with_camera Sample.silent [ReadOk [] 0; ReadFail]) true) ["1"; "2"]
    = (Ok true, ["2"], evs ++ [EPrint "Could not detect mood from webcam."]).
Proof.
  destruct (proj2 no_votes_no_mood
              (Sample.with_camera Sample.silent [ReadOk [] 0; ReadFail]) true "1" ["2"]
              eq_refl (or_intror eq_refl))
    as (evs & _ & Hit & _).
  exists evs. exact Hit.
Defined.

(** ** Folder bootstrap *)

Section Bootstrap.
Implicit Types (t : gmap FS.path FS.node) (p q : FS.path).

Lemma exists_insert_eq t p n : FS.exists_ (<[p := n]> t) p = true.
Proof.
  unfold FS.exists_, FS.node_at. destruct p; [reflexivity|].
  now rewrite lookup_insert_eq.
Qed.

Lemma exists_insert_mono t p n q :
  FS.exists_ t q = true -> FS.exists_ (<[p := n]> t) q = true.
Proof.
  unfold FS.exists_, FS.node_at. destruct q as [|c q]; [reflexivity|].
  destruct (decide (p = c :: q)) as [->|Hne].
  - now rewrite lookup_insert_eq.
  - now rewrite lookup_insert_ne.
Qed.

Lemma is_dir_exists t p : FS.is_dir t p = true -> FS.exists_ t p = true.
Proof.
  unfold FS.is_dir, FS.exists_. destruct (FS.node_at t p) as [[]|]; auto.
Qed.

Lemma os_mkdir_ok t p t' :
  FS.os_mkdir t p = Ok t' ->
  FS.exists_ t' p = true /\ (forall q, FS.exists_ t q = true -> FS.exists_ t' q = true).
Proof.
  unfold FS.os_mkdir. destruct (FS.node_at t p); [discriminate|].
  destruct (FS.node_at t (FS.parent p)) as [[]|]; try discriminate.
  intros [= <-]. split; [apply exists_insert_eq|]. intros q. apply exists_insert_mono.
Qed.

Lemma mkdir_exist_ok_ok t p t' :
  FS.mkdir_exist_ok t p = Ok t' ->
  FS.exists_ t' p = true /\ (forall q, FS.exists_ t q = true -> FS.exists_ t' q = true).
Proof.
  unfold FS.mkdir_exist_ok. destruct (FS.os_mkdir t p) as [t0|e] eqn:Hm.
  - intros [= <-]. now apply os_mkdir_ok.
  - destruct (FS.is_dir t p) eqn:Hd; [|discriminate].
    intros [= <-]. split; [now apply is_dir_exists|auto].
Qed.

Lemma mkdir_parents_rev_ok rp : forall t t',
  FS.mkdir_parents_rev t rp = Ok t' ->
  FS.exists_ t' (rev rp) = true /\ (forall q, FS.exists_ t q = true -> FS.exists_ t' q = true).
Proof.
  induction rp as [|c rp IH]; intros t t' H.
  - injection H as <-. split; [reflexivity|auto].
  - cbn [FS.mkdir_parents_rev] in H.
    destruct (FS.os_mkdir t (rev (c :: rp))) as [t0|e] eqn:Hm.
    + injection H as <-. now apply os_mkdir_ok.
    + assert (Hdir : (if FS.is_dir t (rev (c :: rp)) then Ok t else Raise e) = Ok t' ->
                     FS.exists_ t' (rev (c :: rp)) = true /\
                     (forall q, FS.exists_ t q = true -> FS.exists_ t' q = true)).
      { destruct (FS.is_dir t (rev (c :: rp))) eqn:Hd; [|discriminate].
        intros [= <-]. split; [now apply is_dir_exists|auto]. }
      destruct e; try (now apply Hdir).
      unfold res_bind in H.
      destruct (FS.mkdir_parents_rev t rp) as [t1|e1] eqn:Hp; [|discriminate].
      destruct (IH _ _ Hp) as [_ Hmono1].
      destruct (mkdir_exist_ok_ok _ _ _ H) as [Hex Hmono2].
      split; [exact Hex|]. intros q Hq. apply Hmono2, Hmono1, Hq.
Qed.

Lemma mkdir_parents_ok t p t' :
  FS.mkdir_parents t p = Ok t' ->
  FS.exists_ t' p = true /\ (forall q, FS.exists_ t q = true -> FS.exists_ t' q = true).
Proof.
  unfold FS.mkdir_parents. intros H. apply mkdir_parents_rev_ok in H.
  now rewrite rev_involutive in H.
Qed.

Lemma write_text_ok t p content t' :
  FS.write_text t p content = Ok t' ->
  forall q, FS.exists_ t q = true -> FS.exists_ t' q = true.
Proof.
  unfold FS.write_text. destruct (FS.node_at t (FS.parent p)) as [[]|]; try discriminate.
  destruct (FS.node_at t p) as [[]|]; try discriminate;
    intros [= <-] q; apply exists_insert_mono.
Qed.

(** A run that succeeds keeps what exists and leaves every listed
    folder in place. *)
Lemma ensure_loop_ok items : forall t t',
  FS.ensure_loop items t = Ok t' ->
  (forall q, FS.exists_ t q = true -> FS.exists_ t' q = true) /\
  (forall kv, In kv items -> FS.exists_ t' (FS.of_string (snd kv)) = true).
Proof.
  induction items as [|[mood path_str] items IH]; intros t t' H.
  - injection H as <-. split; [auto|intros kv []].
  - cbn [FS.ensure_loop] in H.
    destruct (FS.exists_ t (FS.of_string path_str)) eqn:Hex.
    + destruct (IH _ _ H) as [Hmono Hall]. split; [exact Hmono|].
      intros kv [<-|Hin]; [now apply Hmono|now apply Hall].
    + unfold res_bind in H.
      destruct (FS.mkdir_parents t (FS.of_string path_str)) as [t1|e] eqn:Hm; [|discriminate].
      destruct (FS.write_text t1 _ _) as [t2|e] eqn:Hw; [|discriminate].
      destruct (mkdir_parents_ok _ _ _ Hm) as [Hp Hmono1].
      pose proof (write_text_ok _ _ _ _ Hw) as Hmono2.
      destruct (IH _ _ H) as [Hmono3 Hall]. split.
      * intros q Hq. apply Hmono3, Hmono2, Hmono1, Hq.
      * intros kv [<-|Hin]; [apply Hmono3, Hmono2, Hp|now apply Hall].
Qed.

(** Where every listed folder exists the loop changes nothing. *)
Lemma ensure_loop_noop items : forall t,
  (forall kv, In kv items -> FS.exists_ t (FS.of_string (snd kv)) = true) ->
  FS.ensure_loop items t = Ok t.
Proof.
  induction items as [|[mood path_str] items IH]; intros t Hall; [reflexivity|].
  cbn [FS.ensure_loop].
  pose proof (Hall (mood, path_str) (or_introl eq_refl)) as Hp. cbn [snd] in Hp.
  rewrite Hp. apply IH. intros kv Hin. apply Hall. now right.
Qed.

Lemma exists_subseteq t t' p : t ⊆ t' -> FS.exists_ t p = true -> FS.exists_ t' p = true.
Proof.
  unfold FS.exists_, FS.node_at. intros Hsub. destruct p as [|c p]; [auto|].
  match goal with
  | |- context [match ?x with _ => _ end = true -> _] => destruct x as [n|] eqn:Hn
  end; [|discriminate].
  intros _. now rewrite (lookup_weaken _ _ _ _ Hn Hsub).
Qed.

End Bootstrap.

(** C9. After a bootstrap that succeeded every mood folder exists, and
    a second bootstrap, on the resulting tree or on any tree that extends
    it or still holds the mood folders, returns that tree unchanged:
    nothing is created twice and no content is touched. *)
Theorem ensure_music_folders_idempotent (t t1 : gmap FS.path FS.node) :
  FS.ensure_music_folders t = Ok t1 ->
  (forall p, In p FS.mood_paths -> FS.exists_ t1 p = true) /\
  FS.ensure_music_folders t1 = Ok t1 /\
  (forall t2, t1 ⊆ t2 -> FS.ensure_music_folders t2 = Ok t2) /\
  (forall t2, (forall p, In p FS.mood_paths -> FS.exists_ t2 p = true) ->
              FS.ensure_music_folders t2 = Ok t2).
Proof.
  intros H. destruct (ensure_loop_ok _ _ _ H) as [_ Hall].
  assert (Hpaths : forall p, In p FS.mood_paths -> FS.exists_ t1 p = true).
  { intros p Hin. unfold FS.mood_paths in Hin. apply in_map_iff in Hin.
    destruct Hin as (kv & <- & Hin). now apply Hall. }
  assert (Hnoop : forall t2, (forall p, In p FS.mood_paths -> FS.exists_ t2 p = true) ->
                             FS.ensure_music_folders t2 = Ok t2).
  { intros t2 H2. apply ensure_loop_noop. intros kv Hin. apply H2.
    unfold FS.mood_paths. apply in_map_iff. now exists kv. }
  repeat split; auto.
  intros t2 Hsub. apply Hnoop. intros p Hin. eapply exists_subseteq; eauto.
Qed.

Lemma ok_value {A : Type} (r : res A) (d : A) :
  IO.is_ok r = true -> r = Ok (match r with Ok a => a | Raise _ => d end).
Proof. destruct r; [reflexivity|discriminate]. Qed.

Lemma ensure_music_folders_idempotent_witness :
  FS.ensure_music_folders ∅ = Ok Sample.after_bootstrap /\
  FS.ensure_music_folders Sample.after_bootstrap = Ok Sample.after_bootstrap /\
  FS.ensure_music_folders Sample.with_song = Ok Sample.with_song.
Proof.
  assert (Hok : IO.is_ok (FS.ensure_music_folders ∅) = true) by (vm_compute; reflexivity).
  pose proof (ok_value (FS.ensure_music_folders ∅) ∅ Hok : 
                FS.ensure_music_folders ∅ = Ok Sample.after_bootstrap) as H.
  destruct (ensure_music_folders_idempotent ∅ Sample.after_bootstrap H)
    as (_ & Hsame & Hsub & _).
  split; [exact H|]. split; [exact Hsame|].
  apply Hsub. apply insert_subseteq. vm_compute. reflexivity.
Defined.

Example bootstrap_creates_folders :
  map (FS.is_dir Sample.after_bootstrap) FS.mood_paths = [true; true; true; true; true; true; true] /\
  Sample.after_bootstrap !! ["music"; "sad"; "README.txt"]
  = Some (FS.File "Place mp3 files for mood 'sad' in this folder.") /\
  size Sample.after_bootstrap = 15.
Proof. vm_compute. repeat split; reflexivity. Qed.

Example bootstrap_music_is_a_file :
  FS.ensure_music_folders {[ ["music"] := FS.File "" ]}
  = Raise (NotADirectoryError "Not a directory").
Proof. vm_compute. reflexivity. Qed.

(** * Further properties *)

(** ** The capture loop *)

Lemma max_from_In {A K : Type} (ltb : K -> K -> bool) (key : A -> K)
      (best : A) (rest : list A) :
  In (Py.max_from ltb key best rest) (best :: rest).
Proof.
  revert best. induction rest as [|x rest IH]; intros best; [now left|].
  cbn [Py.max_from]. destruct (ltb (key best) (key x)).
  - right. apply IH.
  - destruct (IH best) as [H|H]; [now left|right; now right].
Qed.



Lemma capture_appends (display : bool) (n : nat) : forall reads votes0 votes,
  WebcamMoodDetector.capture display n reads votes0 = Ok votes ->
  exists new,
    votes = votes0 ++ new /\ length new <= n /\ length new <= length reads /\
    Forall (first_face_label reads) new.
Proof.
  induction n as [|n IH]; intros reads votes0 votes H.
  - injection H as <-. exists []. rewrite app_nil_r. repeat split; simpl; try lia. constructor.
  - cbn [WebcamMoodDetector.capture] in H.
    destruct reads as [|[|results key|e] reads]; [| | |discriminate].
    + injection H as <-. exists []. rewrite app_nil_r. repeat split; simpl; try lia. constructor.
    + injection H as <-. exists []. rewrite app_nil_r. repeat split; simpl; try lia. constructor.
    + destruct results as [|face others].
      * destruct (IH _ _ _ H) as (new & -> & Hn & Hr & Hall).
        exists new. repeat split; simpl; try lia.
        eapply Forall_impl; [exact Hall|].
        intros v (f & o & k & Hin & Hv). exists f, o, k. split; [now right|exact Hv].
      * unfold res_bind in H.
        destruct (Py.max SFltb (WebcamMoodDetector.score face) (map fst face))
          as [top|e] eqn:Hmax; [|discriminate].
        assert (Htop : first_face_label (ReadOk (face :: others) key :: reads) top).
        { exists face, others, key. split; [now left|].
          unfold Py.max in Hmax. destruct (map fst face) as [|k0 ks]; [discriminate|].
          injection Hmax as <-. apply max_from_In. }
        destruct (display && (Z.land key 255 =? 113)%Z).
        -- injection H as <-. exists [top]. repeat split; simpl; try lia.
           constructor; [exact Htop|constructor].
        -- destruct (IH _ _ _ H) as (new & -> & Hn & Hr & Hall).
           exists (top :: new). rewrite <- app_assoc. repeat split; simpl; try lia.
           constructor; [exact Htop|].
           eapply Forall_impl; [exact Hall|].
           intros v (f & o & k & Hin & Hv). exists f, o, k. split; [now right|exact Hv].
Qed.

(** X1. A capture that returns has collected at most [num_frames] votes and
    no more votes than the camera delivers frames, and every vote is an
    emotion label of the first face found in one of these frames. *)
Theorem capture_at_most_num_frames (display : bool) (num_frames : nat)
        (reads : list cam_read) (votes : list string) :
  WebcamMoodDetector.capture display num_frames reads [] = Ok votes ->
  length votes <= num_frames /\
  length votes <= length reads /\
  Forall (first_face_label reads) votes.
Proof.
  intros H. destruct (capture_appends _ _ _ _ _ H) as (new & -> & Hn & Hr & Hall).
  auto.
Qed.

Lemma capture_at_most_num_frames_witness :
  length ["happy"; "sad"] <= 2 /\
  length ["happy"; "sad"] <= 3 /\
  Forall (first_face_label
            [ ReadOk [[("happy", Text.half); ("sad", Text.f0_3)]] 0;
              ReadOk [[("happy", Text.f0_3); ("sad", Text.half)]; [("fear", Text.half)]] 0;
              ReadOk [[("angry", Text.half)]] 0 ])
         ["happy"; "sad"].
Proof.
  apply (capture_at_most_num_frames false 2
           [ ReadOk [[("happy", Text.half); ("sad", Text.f0_3)]] 0;
             ReadOk [[("happy", Text.f0_3); ("sad", Text.half)]; [("fear", Text.half)]] 0;
             ReadOk [[("angry", Text.half)]] 0 ]).
  vm_compute. reflexivity.
Defined.

Lemma In_firstn {A : Type} (x : A) (n : nat) : forall l, In x (firstn n l) -> In x l.
Proof.
  induction n as [|n IH]; intros [|y l] H; try contradiction.
  destruct H as [H|H]; [now left|right; now apply IH].
Qed.

(** An exception of the capture comes from one of the first [n] passes. *)
Lemma capture_raise_inv (display : bool) (n : nat) : forall reads votes0 e,
  WebcamMoodDetector.capture display n reads votes0 = Raise e ->
  In (ReadRaise e) (firstn n reads) \/
  (e = ValueError "max() iterable argument is empty" /\
   exists others key, In (ReadOk ([] :: others) key) (firstn n reads)).
Proof.
  induction n as [|n IH]; intros reads votes0 e H; [discriminate|].
  cbn [WebcamMoodDetector.capture] in H.
  destruct reads as [|[|results key|e0] reads]; try discriminate.
  - cbn [firstn]. destruct results as [|face others].
    + destruct (IH _ _ _ H) as [Hin|(He & o & k & Hin)]; [left; now right|].
      right. split; [exact He|]. exists o, k. now right.
    + destruct face as [|[k0 s0] face].
      * injection H as <-. right. split; [reflexivity|]. exists others, key. now left.
      * cbn [map fst Py.max res_bind] in H.
        destruct (display && (Z.land key 255 =? 113)%Z); [discriminate|].
        destruct (IH _ _ _ H) as [Hin|(He & o & k & Hin)]; [left; now right|].
        right. split; [exact He|]. exists o, k. now right.
  - injection H as <-. left. now left.
Qed.

(** X2. An exception of the capture loop is the exception of a call that
    raised in one of the first [num_frames] passes, or the [ValueError] of
    [max] over an empty emotion dictionary of the first face of such a
    pass. When no pass raises and no first face comes without emotions,
    the loop returns its votes. *)
Theorem capture_raises_only_from_a_frame (display : bool) (num_frames : nat)
        (reads : list cam_read) :
  (forall e,
     WebcamMoodDetector.capture display num_frames reads [] = Raise e ->
     In (ReadRaise e) (firstn num_frames reads) \/
     (e = ValueError "max() iterable argument is empty" /\
      exists others key, In (ReadOk ([] :: others) key) (firstn num_frames reads))) /\
  ((forall e, ~ In (ReadRaise e) reads) ->
   (forall others key, ~ In (ReadOk ([] :: others) key) reads) ->
   exists votes, WebcamMoodDetector.capture display num_frames reads [] = Ok votes).
Proof.
  split; [intros e; apply capture_raise_inv|].
  intros Hraise Hempty.
  destruct (WebcamMoodDetector.capture display num_frames reads []) as [votes|e] eqn:H;
    [now exists votes|].
  exfalso. destruct (capture_raise_inv _ _ _ _ _ H) as [Hin|(_ & o & k & Hin)].
  - apply (Hraise e). eapply In_firstn. exact Hin.
  - apply (Hempty o k). eapply In_firstn. exact Hin.
Qed.

Lemma capture_raises_only_from_a_frame_witness :
  exists votes,
    WebcamMoodDetector.capture true 12
      [ReadOk [[("happy", Text.half)]] 113; ReadOk [] 0; ReadFail] [] = Ok votes.
Proof.
  apply (proj2 (capture_raises_only_from_a_frame true 12
                  [ReadOk [[("happy", Text.half)]] 113; ReadOk [] 0; ReadFail])).
  - intros e [H|[H|[H|[]]]]; discriminate H.
  - intros others key [H|[H|[H|[]]]]; discriminate H.
Defined.

Example capture_empty_emotions_raises :
  WebcamMoodDetector.capture false 12 [ReadOk [[]] 0] []
  = Raise (ValueError "max() iterable argument is empty").
Proof. reflexivity. Qed.

Example capture_detector_raises :
  WebcamMoodDetector.capture false 12
    [ReadOk [[("happy", Text.half)]] 0; ReadRaise (LibraryError "detector failed")] []
  = Raise (LibraryError "detector failed").
Proof. reflexivity. Qed.

(** ** [detect_mood] as a whole *)



(** X4. For every admissible iteration order of the set of votes, a mood
    returned by [detect_mood] is an emotion label of the first face found
    in one of the frames of the camera; [None] is returned only when the webcam
    could not be opened or when no vote was collected. *)
Theorem detect_mood_returns_a_captured_label (w : world) (display : bool)
        (num_frames : nat) (ins ins' : list string) (evs : list event)
        (mood : option string) :
  Webcam.set_order (w_set_iter w) ->
  run (WebcamMoodDetector.detect_mood w display num_frames) ins = (Ok mood, ins', evs) ->
  match mood with
  | Some m => first_face_label (w_cam_reads w) m
  | None =>
      w_cam_opened w = false \/
      WebcamMoodDetector.capture display num_frames (w_cam_reads w) [] = Ok []
  end.
Proof.
  intros Hord. unfold run, WebcamMoodDetector.detect_mood.
  destruct (w_cam_opened w); cbn [negb].
  - cbv beta iota zeta delta
      [IO.try_except IO.bind IO.call IO.raise IO.lift IO.is_ok app].
    destruct (WebcamMoodDetector.capture display num_frames (w_cam_reads w) [])
      as [votes|e] eqn:Hcap; [|discriminate].
    destruct (capture_appends _ _ _ _ _ Hcap) as (new & Hv & _ & _ & Hall).
    cbn [app] in Hv. subst new.
    destruct votes as [|v votes].
    + cbn. intros [= <- _ _]. now right.
    + destruct (aggregate_first_max (w_set_iter w) (v :: votes) Hord ltac:(discriminate))
        as (m & pre & post & Hm & Hs & _).
      rewrite Hm. intros [= <- _ _].
      rewrite List.Forall_forall in Hall. apply Hall.
      apply (set_order_In (w_set_iter w) (v :: votes) m Hord). rewrite Hs.
      apply in_or_app. right. now left.
  - cbv beta iota zeta delta [IO.bind IO.print IO.emit IO.ret app].
    intros [= <- _ _]. now left.
Qed.

Lemma detect_mood_returns_a_captured_label_witness :
  first_face_label
    (w_cam_reads (Sample.with_camera Sample.silent
                    [ReadOk [[("sad", Text.half); ("happy", Text.f0_3)]] 0]))
    "sad".
Proof.
  apply (detect_mood_returns_a_captured_label
           (Sample.with_camera Sample.silent
              [ReadOk [[("sad", Text.half); ("happy", Text.f0_3)]] 0])
           false 12 [] [] [ECall CapRelease true] (Some "sad")).
  - exact order_nodup_ok.
  - vm_compute. reflexivity.
Defined.

(** ** The local player *)

Lemma is_audio_suffix (x : dir_entry) :
  is_audio x = true <-> In (Str.lower (de_suffix x)) audio_suffixes.
Proof.
  unfold is_audio. rewrite existsb_exists. split.
  - intros (s & Hin & Heq). apply String.eqb_eq in Heq. now subst s.
  - intros Hin. exists (Str.lower (de_suffix x)). split; [exact Hin|apply String.eqb_refl].
Qed.

(** X5. [list_music_files] asks whether the folder exists and lists it only
    when it does, and reads no input. For a missing folder the result is
    the empty list. For a folder that lists, the result holds the paths of
    exactly the entries whose suffix in lower case is one of .mp3, .wav,
    .ogg and .flac. *)
Theorem list_music_files_audio_only (w : world) (folder : string) (ins : list string) :
  run (list_music_files w folder) ins
  = (catalog w folder, ins,
     ECall (PathExists folder) true
     :: (if w_exists w folder
         then [ECall (PathIterdir folder) (IO.is_ok (w_iterdir w folder))]
         else [])) /\
  (w_exists w folder = false -> catalog w folder = Ok []) /\
  (forall entries,
     w_exists w folder = true -> w_iterdir w folder = Ok entries ->
     exists files,
       catalog w folder = Ok files /\
       forall f, In f files <->
                 exists x, In x entries /\ de_str x = f /\
                           In (Str.lower (de_suffix x)) audio_suffixes).
Proof.
  split; [|split].
  - unfold catalog. io_run; reflexivity.
  - unfold catalog. now intros ->.
  - intros entries Hex Hit. unfold catalog. rewrite Hex, Hit. cbn [res_bind].
    eexists. split; [reflexivity|]. intros f. rewrite in_map_iff. split.
    + intros (x & Hf & Hin). apply filter_In in Hin. destruct Hin as [Hin Ha].
      exists x. repeat split; auto. now apply is_audio_suffix.
    + intros (x & Hin & Hf & Ha). exists x. split; [exact Hf|].
      apply filter_In. split; [exact Hin|now apply is_audio_suffix].
Qed.

Lemma list_music_files_audio_only_witness :
  exists files,
    catalog Sample.local_ok "music/happy" = Ok files /\
    forall f, In f files <->
              exists x, In x Sample.happy_folder /\ de_str x = f /\
                        In (Str.lower (de_suffix x)) audio_suffixes.
Proof.
  exact (proj2 (proj2 (list_music_files_audio_only Sample.local_ok "music/happy" []))
               Sample.happy_folder eq_refl eq_refl).
Defined.

(** X6. On every terminal, [play_file] reads no input, and an exception
    that leaves it is the exception of one of its two prints: the line
    that names the file, printed before the [try], or the line that
    reports a failure of the mixer, printed in the handler. Exceptions of
    the mixer are caught. When the first print raises, nothing is loaded.
    The mixer is started only after the first line was written and the
    load returned. On a terminal that takes every line, [play_file]
    returns, and prints the failure when the load or the start raised. *)
Theorem play_file_raises_only_from_print (out : IO.stdout) (w : world)
        (filepath : string) (ins : list string) :
  let r := run_on out (LocalMusicPlayer.play_file w filepath) ins in
  snd (fst r) = ins /\
  (forall e,
     fst (fst r) = Raise e ->
     out ("Playing: " +:+ filepath) = Raise e \/
     exists e',
       (w_mixer_load w filepath = Raise e' \/ w_mixer_play w filepath = Raise e') /\
       out ("Failed to play file: " +:+ exn_str e') = Raise e) /\
  (forall e, out ("Playing: " +:+ filepath) = Raise e -> r = (Raise e, ins, [])) /\
  (forall ok, In (ECall (MixerPlay filepath) ok) (snd r) ->
     IO.is_ok (out ("Playing: " +:+ filepath)) = true /\
     IO.is_ok (w_mixer_load w filepath) = true) /\
  ((forall line, IO.is_ok (out line) = true) ->
   exists evs,
     r = (Ok tt, ins,
          EPrint ("Playing: " +:+ filepath)
          :: ECall (MixerLoad filepath) (IO.is_ok (w_mixer_load w filepath)) :: evs) /\
     match w_mixer_load w filepath, w_mixer_play w filepath with
     | Raise e, _ => evs = [EPrint ("Failed to play file: " +:+ exn_str e)]
     | Ok _, Raise e =>
         evs = [ECall (MixerPlay filepath) false;
                EPrint ("Failed to play file: " +:+ exn_str e)]
     | Ok _, Ok _ => evs = [ECall (MixerPlay filepath) true]
     end).
Proof.
  io_run; (split; [reflexivity|]);
    (split;
     [intros err He; try discriminate He; injection He as <-;
      first [left; reflexivity | right; eexists; split; [|eassumption]; auto]|]);
    (split; [intros err He; try discriminate He; injection He as <-; reflexivity|]);
    (split; [intros ok Hin; cbn in Hin; split; first [reflexivity | exfalso; intuition discriminate]|]);
    intros Hout;
    repeat match goal with
           | H : out ?s = Raise _ |- _ =>
               let Hs := fresh in
               pose proof (Hout s) as Hs; rewrite H in Hs; discriminate Hs
           end;
    eexists; split; reflexivity.
Qed.

Lemma play_file_raises_only_from_print_witness :
  run_on Sample.cp1252
    (LocalMusicPlayer.play_file Sample.local_headphone
       ("music/happy/" +:+ Sample.headphone +:+ ".mp3")) ["next"]
  = (Raise (UnicodeEncodeError "character maps to <undefined>"), ["next"], []).
Proof.
  apply (proj1 (proj2 (proj2 (play_file_raises_only_from_print
                                Sample.cp1252 Sample.local_headphone
                                ("music/happy/" +:+ Sample.headphone +:+ ".mp3") ["next"])))).
  vm_compute. reflexivity.
Defined.

(** X7. On every terminal, [play_random_for_mood] reads no input, and an
    exception that leaves it was raised by the listing of the folder of the
    mood or by a print. On a terminal that takes every line it raises
    exactly what the listing raises and returns otherwise. For a mood
    without a folder it touches neither the file system nor the mixer: it
    only prints that no folder is mapped, if the terminal takes the
    line. *)
Theorem local_player_raises_from_listing_or_print (out : IO.stdout) (w : world)
        (mood : string) (ins : list string) :
  let r := run_on out (LocalMusicPlayer.play_random_for_mood w mood) ins in
  snd (fst r) = ins /\
  (forall e,
     fst (fst r) = Raise e ->
     (exists folder, Py.get MOOD_FOLDERS mood = Some folder /\ catalog w folder = Raise e) \/
     (exists line, out line = Raise e)) /\
  ((forall line, IO.is_ok (out line) = true) ->
   fst (fst r)
   = match Py.get MOOD_FOLDERS mood with
     | None => Ok tt
     | Some folder =>
         match catalog w folder with
         | Ok _ => Ok tt
         | Raise e => Raise e
         end
     end) /\
  (Py.get MOOD_FOLDERS mood = None ->
   snd r = EAttempt Local
           :: (if IO.is_ok (out ("No folder mapped for mood: " +:+ mood))
               then [EPrint ("No folder mapped for mood: " +:+ mood)] else [])).
Proof.
  unfold LocalMusicPlayer.play_random_for_mood, catalog.
  destruct (Py.get MOOD_FOLDERS mood) as [folder|] eqn:Hfolder;
    io_run; (split; [reflexivity|]);
    (split;
     [intros err He; try discriminate He; injection He as <-;
      first [right; eexists; eassumption
            |left; exists folder; (split; [reflexivity|]);
             repeat match goal with
                    | H : w_exists _ _ = _ |- _ => rewrite H; clear H
                    | H : w_iterdir _ _ = _ |- _ => rewrite H; clear H
                    end; reflexivity]|]);
    (split;
     [intros Hout;
      repeat match goal with
             | H : out ?s = Raise _ |- _ =>
                 let Hs := fresh in
                 pose proof (Hout s) as Hs; rewrite H in Hs; discriminate Hs
             end; reflexivity|]);
    intros H; first [discriminate H | reflexivity].
Qed.

Lemma local_player_raises_from_listing_or_print_witness :
  fst (fst (run_on IO.accepting
              (LocalMusicPlayer.play_random_for_mood Sample.unreadable "fear") []))
  = Raise (NotADirectoryError "Not a directory").
Proof.
  rewrite (proj1 (proj2 (proj2 (local_player_raises_from_listing_or_print
                                  IO.accepting Sample.unreadable "fear" [])))
                 (fun _ => eq_refl)).
  reflexivity.
Defined.

(** X8. Every file that [play_random_for_mood] loads or starts is one of the
    audio files listed for the folder that [MOOD_FOLDERS] maps the mood
    to. *)
Theorem local_player_plays_from_folder (w : world) (mood : string) (ins : list string)
        (f : string) (ok : bool) :
  In (ECall (MixerLoad f) ok) (snd (run (LocalMusicPlayer.play_random_for_mood w mood) ins)) \/
  In (ECall (MixerPlay f) ok) (snd (run (LocalMusicPlayer.play_random_for_mood w mood) ins)) ->
  exists folder files,
    Py.get MOOD_FOLDERS mood = Some folder /\
    catalog w folder = Ok files /\ In f files.
Proof.
  unfold LocalMusicPlayer.play_random_for_mood.
  destruct (Py.get MOOD_FOLDERS mood) as [folder|].
  - io_unfold. destruct (w_exists w folder) eqn:Hex.
    + io_unfold. destruct (w_iterdir w folder) as [entries|e] eqn:Hit.
      * io_unfold. destruct (map de_str (List.filter is_audio entries)) as [|f0 fs] eqn:Hfiles.
        -- cbn. intuition discriminate.
        -- assert (Hcat : catalog w folder = Ok (f0 :: fs)).
           { unfold catalog. rewrite Hex, Hit. cbn [res_bind]. now rewrite Hfiles. }
           pose proof (random_choice_In w (f0 :: fs) ltac:(discriminate)) as Hin.
           revert Hin. generalize (LocalMusicPlayer.random_choice w (f0 :: fs)) as track.
           intros track Hin. io_run; cbn [In]; intros H;
             exists folder, (f0 :: fs); (split; [reflexivity|]); (split; [exact Hcat|]);
             repeat (destruct H as [H|H]); try discriminate; try contradiction;
             injection H as <- _; exact Hin.
      * cbn. intuition discriminate.
    + cbn. intuition discriminate.
  - cbn. intuition discriminate.
Qed.

Lemma local_player_plays_from_folder_witness :
  exists folder files,
    Py.get MOOD_FOLDERS "happy" = Some folder /\
    catalog Sample.local_ok folder = Ok files /\ In "music/happy/a.MP3" files.
Proof.
  apply (local_player_plays_from_folder Sample.local_ok "happy" [] "music/happy/a.MP3" true).
  left. vm_compute. tauto.
Defined.

(** ** Routing *)



Lemma local_player_no_spotify (w : world) (mood : string) (ins : list string) :
  forallb (fun ev => negb (is_spotify ev))
          (snd (run (LocalMusicPlayer.play_random_for_mood w mood) ins)) = true.
Proof.
  unfold LocalMusicPlayer.play_random_for_mood.
  destruct (Py.get MOOD_FOLDERS mood); io_run; reflexivity.
Qed.

Lemma local_player_stdin (w : world) (mood : string) (ins : list string) :
  snd (fst (run (LocalMusicPlayer.play_random_for_mood w mood) ins)) = ins.
Proof.
  unfold LocalMusicPlayer.play_random_for_mood.
  destruct (Py.get MOOD_FOLDERS mood); io_run; reflexivity.
Qed.

(** X9. When the answer to the playback prompt is not 2 after stripping, or
    when there is no Spotify controller, [playback] prints the options (the
    Spotify option only with a controller), reads one line and runs the
    local player for the mood: result, remaining input and events are those
    of the local player, and no call to Spotify is made. *)
Theorem playback_local_unless_asked (w : world) (spotify_controller : bool)
        (mood line : string) (rest : list string) :
  Str.strip line <> "2" \/ spotify_controller = false ->
  exists r evs,
    run (LocalMusicPlayer.play_random_for_mood w mood) rest = (r, rest, evs) /\
    forallb (fun ev => negb (is_spotify ev)) evs = true /\
    run (Main.playback w spotify_controller mood) (line :: rest)
    = (r, rest,
       [EPrint (Main.nl +:+ "Playback options:"); EPrint "1) Play local music (default)"]
       ++ (if spotify_controller then [EPrint "2) Try Spotify playlists"] else [])
       ++ EPrompt "Choose (1 or 2): " :: evs).
Proof.
  intros Hc.
  pose proof (local_player_no_spotify w mood rest) as Hns.
  pose proof (local_player_stdin w mood rest) as Hin.
  destruct (run (LocalMusicPlayer.play_random_for_mood w mood) rest) as [[r ins'] evs] eqn:Hrun.
  cbn [fst snd] in Hns, Hin. subst ins'. exists r, evs. split; [reflexivity|]. split; [exact Hns|].
  unfold run, run_on, IO.accepting in *. unfold Main.playback, Main.route.
  assert (Hcond : (String.eqb (match Str.strip line with
                               | EmptyString => "1"
                               | String a s => String a s
                               end) "2" && spotify_controller) = false).
  { destruct Hc as [Hc| ->]; [|apply andb_false_r].
    apply andb_false_iff. left. destruct (Str.strip line) as [|a s] eqn:Hs; [reflexivity|].
    now apply String.eqb_neq. }
  destruct spotify_controller;
    cbv beta iota zeta delta [IO.bind IO.print IO.emit IO.ret IO.input app];
    rewrite Hcond, Hrun; reflexivity.
Qed.

Lemma playback_local_unless_asked_witness :
  exists r evs,
    run (LocalMusicPlayer.play_random_for_mood Sample.streaming_ok "happy") [] = (r, [], evs) /\
    forallb (fun ev => negb (is_spotify ev)) evs = true /\
    run (Main.playback Sample.streaming_ok true "happy") ["  "]
    = (r, [],
       [EPrint (Main.nl +:+ "Playback options:"); EPrint "1) Play local music (default)"]
       ++ [EPrint "2) Try Spotify playlists"]
       ++ EPrompt "Choose (1 or 2): " :: evs).
Proof.
  apply (playback_local_unless_asked Sample.streaming_ok true "happy" "  " []).
  left. vm_compute. discriminate.
Defined.

(** X10. On every terminal, routing reads no input, and an exception that
    leaves it was raised by the listing of the folder of the mood or by a
    print: failures of the search, of the devices, of the start of
    playback and of the mixer are all handled. On a terminal that takes
    every line, routing returns whenever the folder of the mood lists. *)
Theorem route_raises_from_listing_or_print (out : IO.stdout) (w : world)
        (spotify_controller : bool) (play_choice mood : string) (ins : list string) :
  let r := run_on out (Main.route w spotify_controller play_choice mood) ins in
  snd (fst r) = ins /\
  (forall e,
     fst (fst r) = Raise e ->
     (exists folder, Py.get MOOD_FOLDERS mood = Some folder /\ catalog w folder = Raise e) \/
     (exists line, out line = Raise e)) /\
  ((forall line, IO.is_ok (out line) = true) ->
   (forall folder, Py.get MOOD_FOLDERS mood = Some folder ->
                   IO.is_ok (catalog w folder) = true) ->
   fst (fst r) = Ok tt).
Proof.
  intros r.
  destruct (route_on_facts out w spotify_controller play_choice mood ins)
    as (Hin & Hraise & _).
  fold r in Hin, Hraise. split; [exact Hin|]. split; [exact Hraise|].
  intros Hout Hok.
  destruct (fst (fst r)) as [[]|e] eqn:Hr; [reflexivity|].
  destruct (Hraise e eq_refl) as [(folder & Hf & Hc)|(line & Hl)].
  - specialize (Hok folder Hf). rewrite Hc in Hok. discriminate.
  - specialize (Hout line). rewrite Hl in Hout. discriminate.
Qed.

Lemma route_raises_from_listing_or_print_witness :
  fst (fst (run_on IO.accepting (Main.route Sample.local_ok true "2" "happy") [])) = Ok tt.
Proof.
  apply (proj2 (proj2 (route_raises_from_listing_or_print
                         IO.accepting Sample.local_ok true "2" "happy" []))).
  - intros line. reflexivity.
  - intros folder H. injection H as <-. reflexivity.
Defined.

(** A track whose name the terminal cannot encode: the print before the
    [try] of [play_file] raises and the exception leaves the routing,
    though the folder lists. *)
Example route_print_error_escapes :
  fst (run_on Sample.cp1252 (Main.route Sample.local_headphone false "1" "happy") [])
  = (Raise (UnicodeEncodeError "character maps to <undefined>"), []) /\
  catalog Sample.local_headphone "music/happy"
  = Ok ["music/happy/" +:+ Sample.headphone +:+ ".mp3"; "music/happy/b.ogg"].
Proof. split; vm_compute; reflexivity. Qed.

(** X11. When Spotify is asked for, the search finds no playlist and the
    folder of the mood cannot be listed, the local player is attempted
    twice (once as the fallback of the search, once in the handler of the
    exception) and the exception of the second listing leaves the
    routing. *)
Theorem route_listing_error_escapes (w : world) (mood folder : string) (e : exn)
        (ins : list string) :
  Py.get MOOD_FOLDERS mood = Some folder ->
  Spec.search_not_found w mood ->
  catalog w folder = Raise e ->
  run (Main.route w true "2" mood) ins
  = (Raise e, ins,
     [ EAttempt Streaming;
       ECall (SpSearch (mood +:+ " playlist")) true;
       EPrint "No Spotify playlist found for mood. Falling back to local playback.";
       EAttempt Local;
       ECall (PathExists folder) true;
       ECall (PathIterdir folder) false;
       EPrint ("Spotify playback error: " +:+ exn_str e);
       EPrint "Falling back to local music.";
       EAttempt Local;
       ECall (PathExists folder) true;
       ECall (PathIterdir folder) false ]).
Proof.
  intros Hfolder. unfold Main.route, LocalMusicPlayer.play_random_for_mood.
  rewrite Hfolder. cbn [String.eqb Ascii.eqb Bool.eqb andb].
  unfold Spec.search_not_found, catalog.
  io_run; intros Hs Hc; try discriminate; try contradiction;
    injection Hc as <-; reflexivity.
Qed.

Lemma route_listing_error_escapes_witness :
  fst (fst (run (Main.route Sample.unreadable true "2" "fear") ["next"]))
  = Raise (NotADirectoryError "Not a directory").
Proof.
  rewrite (route_listing_error_escapes Sample.unreadable "fear" "music/fear"
             (NotADirectoryError "Not a directory") ["next"]);
    [reflexivity|reflexivity|exact I|reflexivity].
Defined.

(** ** The Spotify controller *)

(** X12. When the device list of Spotify is missing or empty,
    [start_playback_by_uri] raises the error about active devices after the
    one call that lists the devices; a routing request that found a
    playlist then requests no start of playback, prints the error and goes
    on to the local player. *)
Theorem no_device_no_start (w : world) (devices : devices_result) (ins : list string) :
  w_devices w = Ok devices ->
  dr_devices devices = None \/ dr_devices devices = Some [] ->
  (forall uri,
     run (SpotifyController.start_playback_by_uri w uri) ins
     = (Raise (RuntimeError
                 "No active Spotify devices found. Start Spotify on a device and try again."),
        ins, [ECall SpDevices true])) /\
  (forall mood top more,
     w_search w (mood +:+ " playlist") = Ok {| sr_playlists := Some (Some (top :: more)) |} ->
     let evs := snd (run (Main.route w true "2" mood) ins) in
     Spec.start_requests evs = [] /\
     In (EPrint ("Spotify playback error: "
                 +:+ "No active Spotify devices found. Start Spotify on a device and try again."))
        evs /\
     In (EAttempt Local) evs).
Proof.
  intros Hd Hnone. split.
  - intros uri. unfold run, SpotifyController.start_playback_by_uri.
    io_unfold. rewrite Hd. destruct Hnone as [-> | ->]; reflexivity.
  - intros mood top more Hsearch.
    remember (Py.get MOOD_FOLDERS mood) as folder eqn:Hfolder.
    unfold Main.route, LocalMusicPlayer.play_random_for_mood. rewrite <- Hfolder.
    cbn [String.eqb Ascii.eqb Bool.eqb andb].
    io_unfold. rewrite Hsearch. cbn [sr_playlists]. io_unfold. rewrite Hd.
    destruct Hnone as [-> | ->]; io_run;
      (split; [reflexivity|]); split; cbn; tauto.
Qed.

Lemma no_device_no_start_witness :
  run (SpotifyController.start_playback_by_uri
         (Sample.with_devices Sample.streaming_ok (Ok {| dr_devices := None |})
                              (fun _ _ => Ok tt)) "spotify:playlist:1") []
  = (Raise (RuntimeError
              "No active Spotify devices found. Start Spotify on a device and try again."),
     [], [ECall SpDevices true]).
Proof.
  apply (proj1 (no_device_no_start
                  (Sample.with_devices Sample.streaming_ok (Ok {| dr_devices := None |})
                                       (fun _ _ => Ok tt))
                  {| dr_devices := None |} [] eq_refl (or_introl eq_refl))).
Defined.

(** ** The menu and the loop *)



Ltac loop_unfold :=
  cbv beta iota zeta delta
    [run run_on IO.accepting Main.acquire Main.iteration menu_events
     IO.try_except IO.bind IO.call IO.emit IO.print IO.ret IO.raise IO.lift IO.input
     IO.is_ok app fst snd].

(** X13. With the menu choice 2 the next line is the journal text; the pass
    prints the inferred mood and returns it, the mood is happy, sad or
    neutral, and it is a key of [MOOD_FOLDERS], so the local player finds a
    folder for it. *)
Theorem text_mood_has_folder (w : world) (choice text : string) (rest : list string) :
  Str.strip choice = "2" ->
  exists mood,
    run (Main.acquire w) (choice :: text :: rest)
    = (Ok (Main.Mood mood), rest,
       menu_events
       ++ [EPrompt ("Write how you feel (a few sentences):" +:+ Main.nl);
           EPrint ("Inferred mood from text: " +:+ mood)]) /\
    In mood ["happy"; "sad"; "neutral"] /\
    dict_mem mood MOOD_FOLDERS = true.
Proof.
  intros Hc. loop_unfold. rewrite Hc. cbn [String.eqb Ascii.eqb Bool.eqb].
  unfold Text.detect_mood, Text.mood_of_polarity.
  destruct (SFltb Text.f0_3 (w_polarity w text));
    [|destruct (SFltb (w_polarity w text) (SFopp Text.f0_3))];
    eexists; (split; [reflexivity|]); (split; [cbn; tauto|reflexivity]).
Qed.

Lemma text_mood_has_folder_witness :
  exists mood,
    run (Main.acquire Sample.silent) ["2"; "so so"; "1"]
    = (Ok (Main.Mood mood), ["1"],
       menu_events
       ++ [EPrompt ("Write how you feel (a few sentences):" +:+ Main.nl);
           EPrint ("Inferred mood from text: " +:+ mood)]) /\
    In mood ["happy"; "sad"; "neutral"] /\
    dict_mem mood MOOD_FOLDERS = true.
Proof. apply (text_mood_has_folder Sample.silent "2" "so so" ["1"]). reflexivity. Defined.

(** X14. At the end of the input the menu prompt raises [EOFError] after the
    menu was printed. A choice that is none of 1, 2, 3 and 4 after
    stripping prints "Invalid choice." and asks for another pass, with the
    rest of the input untouched. With the choice 2 or 3 and no further
    line, the second prompt raises [EOFError]. *)
Theorem acquire_invalid_choice_or_end_of_input (w : world) :
  run (Main.acquire w) [] = (Raise EOFError, [], menu_events) /\
  (forall choice rest,
     ~ In (Str.strip choice) ["1"; "2"; "3"; "4"] ->
     run (Main.acquire w) (choice :: rest)
     = (Ok Main.Again, rest, menu_events ++ [EPrint "Invalid choice."])) /\
  (forall choice,
     Str.strip choice = "2" \/ Str.strip choice = "3" ->
     fst (run (Main.acquire w) [choice]) = (Raise EOFError, [])).
Proof.
  split; [reflexivity|]. split.
  - intros choice rest Hn. loop_unfold.
    repeat match goal with
           | |- context [String.eqb (Str.strip choice) ?c] =>
               let E := fresh "E" in
               destruct (String.eqb_spec (Str.strip choice) c) as [E|E];
               [exfalso; apply Hn; rewrite E; cbn; tauto|loop_unfold]
           end.
    reflexivity.
  - intros choice [Hc|Hc]; loop_unfold; rewrite Hc; reflexivity.
Qed.

Lemma acquire_invalid_choice_or_end_of_input_witness :
  run (Main.acquire Sample.silent) ["5"; "4"]
  = (Ok Main.Again, ["4"], menu_events ++ [EPrint "Invalid choice."]).
Proof.
  apply (proj1 (proj2 (acquire_invalid_choice_or_end_of_input Sample.silent)) "5" ["4"]).
  vm_compute. intuition discriminate.
Defined.

Lemma detect_mood_stdin (w : world) (display : bool) (n : nat) (ins : list string) :
  snd (fst (run (WebcamMoodDetector.detect_mood w display n) ins)) = ins.
Proof.
  unfold run, WebcamMoodDetector.detect_mood.
  destruct (w_cam_opened w); cbn [negb];
    cbv beta iota zeta delta
      [IO.try_except IO.bind IO.call IO.raise IO.lift IO.is_ok IO.print IO.emit IO.ret app].
  - destruct (WebcamMoodDetector.capture display n (w_cam_reads w) []); [|reflexivity].
    destruct (Webcam.aggregate (w_set_iter w) a); reflexivity.
  - reflexivity.
Qed.

Lemma route_stdin (w : world) (spotify_controller : bool) (play_choice mood : string)
      (ins : list string) :
  snd (fst (run (Main.route w spotify_controller play_choice mood) ins)) = ins.
Proof. exact (proj1 (route_on_facts IO.accepting w spotify_controller play_choice mood ins)). Qed.

(** [playback] reads one line, or fails at the end of the input. *)
Lemma playback_stdin (w : world) (spotify_controller : bool) (mood : string)
      (ins ins' : list string) (r : res unit) (evs : list event) :
  run (Main.playback w spotify_controller mood) ins = (r, ins', evs) ->
  (exists line, ins = line :: ins') \/ (ins = [] /\ ins' = [] /\ r = Raise EOFError).
Proof.
  unfold run, run_on, IO.accepting, Main.playback.
  destruct ins as [|line rest].
  - destruct spotify_controller;
      cbv beta iota zeta delta [IO.bind IO.print IO.emit IO.ret IO.input app];
      intros [= <- <- _]; right; auto.
  - intros H. left. exists line. f_equal.
    revert H.
    pose proof (route_stdin w spotify_controller
                  (match Str.strip line with
                   | EmptyString => "1"
                   | String a s => String a s
                   end) mood rest) as Hr.
    unfold run, run_on, IO.accepting in Hr.
    destruct spotify_controller;
      cbv beta iota zeta delta [IO.bind IO.print IO.emit IO.ret IO.input app];
      destruct (Main.route _ _ _ mood _ rest) as [[r0 i0] e0];
      cbn [fst snd] in Hr; subst i0; intros [= _ <- _]; reflexivity.
Qed.

(** A pass that asks for [break] read the choice 4 and nothing else. *)
Lemma iteration_exit_inv (w : world) (spotify_controller : bool)
      (ins ins' : list string) (evs : list event) :
  run (Main.iteration w spotify_controller) ins = (Ok false, ins', evs) ->
  exists line,
    ins = line :: ins' /\ Str.strip line = "4" /\
    evs = menu_events ++ [EPrint "Goodbye!"].
Proof.
  destruct ins as [|line rest]; [discriminate|].
  loop_unfold.
  destruct (String.eqb_spec (Str.strip line) "1") as [E1|E1]; loop_unfold.
  - destruct (WebcamMoodDetector.detect_mood w false 12 _ rest) as [[[[[|a m]|]|e] i] d];
      try discriminate.
    destruct (Main.playback w spotify_controller (String a m) _ i) as [[[|] i2] e2]; discriminate.
  - destruct (String.eqb_spec (Str.strip line) "2") as [E2|E2]; loop_unfold.
    + destruct rest as [|text rest]; [discriminate|].
      destruct (Main.playback w spotify_controller _ _ rest) as [[[|] i2] e2]; discriminate.
    + destruct (String.eqb_spec (Str.strip line) "3") as [E3|E3]; loop_unfold.
      * destruct rest as [|typed rest]; [discriminate|].
        destruct (negb (dict_mem (Str.lower (Str.strip typed)) MOOD_FOLDERS)); [discriminate|].
        destruct (Main.playback w spotify_controller _ _ rest) as [[[|] i2] e2]; discriminate.
      * destruct (String.eqb_spec (Str.strip line) "4") as [E4|E4]; loop_unfold;
          [|discriminate].
        intros [= <- <-]. exists line. auto.
Qed.

(** A pass that returns has read at least one line. *)
Lemma iteration_consumes (w : world) (spotify_controller : bool)
      (ins ins' : list string) (go_on : bool) (evs : list event) :
  run (Main.iteration w spotify_controller) ins = (Ok go_on, ins', evs) ->
  length ins' < length ins.
Proof.
  destruct ins as [|line rest]; [discriminate|].
  assert (Hpb : forall mood i r i2 e2,
             run (Main.playback w spotify_controller mood) i = (r, i2, e2) -> length i2 <= length i).
  { intros mood i r i2 e2 H. apply playback_stdin in H.
    destruct H as [[l ->]|(-> & -> & _)]; simpl; lia. }
  loop_unfold.
  destruct (String.eqb_spec (Str.strip line) "1") as [E1|E1]; loop_unfold.
  - pose proof (detect_mood_stdin w false 12 rest) as Hd. unfold run, run_on, IO.accepting in Hd.
    destruct (WebcamMoodDetector.detect_mood w false 12 _ rest) as [[[[[|a m]|]|e] i] d];
      cbn [fst snd] in Hd; subst i; try discriminate;
      try (intros [= _ <- _]; simpl; lia).
    destruct (Main.playback w spotify_controller (String a m) _ rest) as [[[|] i2] e2] eqn:Hp;
      [|discriminate].
    intros [= _ <- _]. apply Hpb in Hp. simpl. lia.
  - destruct (String.eqb_spec (Str.strip line) "2") as [E2|E2]; loop_unfold.
    + destruct rest as [|text rest]; [discriminate|].
      destruct (Main.playback w spotify_controller _ _ rest) as [[[|] i2] e2] eqn:Hp;
        [|discriminate].
      intros [= _ <- _]. apply Hpb in Hp. simpl. lia.
    + destruct (String.eqb_spec (Str.strip line) "3") as [E3|E3]; loop_unfold.
      * destruct rest as [|typed rest]; [discriminate|].
        destruct (negb (dict_mem (Str.lower (Str.strip typed)) MOOD_FOLDERS)).
        -- intros [= _ <- _]. simpl. lia.
        -- destruct (Main.playback w spotify_controller _ _ rest) as [[[|] i2] e2] eqn:Hp;
             [|discriminate].
           intros [= _ <- _]. apply Hpb in Hp. simpl. lia.
      * destruct (String.eqb_spec (Str.strip line) "4") as [E4|E4]; loop_unfold;
          intros [= _ <- _]; simpl; lia.
Qed.

(** X15. A pass of the loop asks for [break] exactly when the first line read
    is 4 after stripping; it then reads that line only and prints the menu
    followed by "Goodbye!". *)
Theorem iteration_stops_only_on_exit (w : world) (spotify_controller : bool)
        (ins ins' : list string) (evs : list event) :
  run (Main.iteration w spotify_controller) ins = (Ok false, ins', evs) <->
  exists line,
    ins = line :: ins' /\ Str.strip line = "4" /\
    evs = menu_events ++ [EPrint "Goodbye!"].
Proof.
  split; [apply iteration_exit_inv|].
  intros (line & -> & Hc & ->). loop_unfold. rewrite Hc. reflexivity.
Qed.

Lemma while_true_run (spotify_controller : bool) (worlds : list world) :
  forall ins r ins' evs,
    run (Startup.while_true worlds spotify_controller) ins = (r, ins', evs) ->
    (length ins < length worlds -> r <> Ok false) /\
    (r = Ok true -> exists evs0, evs = evs0 ++ menu_events ++ [EPrint "Goodbye!"]).
Proof.
  induction worlds as [|w worlds IH]; intros ins r ins' evs H.
  - injection H as <- <- <-. split; [simpl; lia|discriminate].
  - unfold run, run_on in H. cbn [Startup.while_true] in H. unfold IO.bind in H.
    destruct (Main.iteration w spotify_controller IO.accepting ins)
      as [[[go_on|e] ins1] evs1] eqn:Hit.
    + destruct go_on.
      * pose proof (iteration_consumes _ _ _ _ _ _ Hit) as Hlen.
        destruct (Startup.while_true worlds spotify_controller IO.accepting ins1)
          as [[r2 ins2] evs2] eqn:Hw.
        injection H as <- <- <-. destruct (IH _ _ _ _ Hw) as [IH1 IH2]. split.
        -- intros Hl. apply IH1. simpl in Hl. lia.
        -- intros Hr. destruct (IH2 Hr) as (evs0 & ->).
           exists (evs1 ++ evs0). now rewrite <- app_assoc.
      * apply iteration_exit_inv in Hit. destruct Hit as (line & -> & Hc & ->).
        cbn in H. injection H as <- <- <-. split; [discriminate|]. intros _.
        exists []. reflexivity.
    + injection H as <- <- <-. split; discriminate.
Qed.

(** X16. The loop cannot run more passes than there are input lines: given
    more passes than lines, it ends by [break] or by an exception (as
    [EOFError] at the end of the input). When it ends by [break], the last
    things printed are the menu and "Goodbye!". *)
Theorem while_true_ends (worlds : list world) (spotify_controller : bool)
        (ins : list string) :
  (length ins < length worlds ->
   fst (fst (run (Startup.while_true worlds spotify_controller) ins)) <> Ok false) /\
  (fst (fst (run (Startup.while_true worlds spotify_controller) ins)) = Ok true ->
   exists evs0,
     snd (run (Startup.while_true worlds spotify_controller) ins)
     = evs0 ++ menu_events ++ [EPrint "Goodbye!"]).
Proof.
  destruct (run (Startup.while_true worlds spotify_controller) ins) as [[r ins'] evs] eqn:H.
  exact (while_true_run _ _ _ _ _ _ H).
Qed.

Lemma while_true_ends_witness :
  fst (fst (run (Startup.while_true [Sample.silent; Sample.silent; Sample.silent] false)
                ["7"; "4"]))
  <> Ok false.
Proof.
  apply (proj1 (while_true_ends [Sample.silent; Sample.silent; Sample.silent] false ["7"; "4"])).
  simpl. lia.
Defined.

Example while_true_end_of_input :
  fst (run (Startup.while_true [Sample.silent; Sample.silent; Sample.silent] false) ["7"])
  = (Raise EOFError, []).
Proof. vm_compute. reflexivity. Qed.

Lemma iteration_stops_only_on_exit_witness :
  exists line,
    [" 4"; "1"] = line :: ["1"] /\ Str.strip line = "4" /\
    menu_events ++ [EPrint "Goodbye!"] = menu_events ++ [EPrint "Goodbye!"].
Proof.
  apply (proj1 (iteration_stops_only_on_exit Sample.silent true [" 4"; "1"] ["1"]
                  (menu_events ++ [EPrint "Goodbye!"]))).
  vm_compute. reflexivity.
Defined.

(** ** Start-up *)



(** ** Normalisation of the typed mood *)

Lemma lower_char_idem (c : ascii) : Str.lower_char (Str.lower_char c) = Str.lower_char c.
Proof. destruct c as [[] [] [] [] [] [] [] []]; reflexivity. Qed.

Lemma isspace_lower_char (c : ascii) : Str.isspace (Str.lower_char c) = Str.isspace c.
Proof. destruct c as [[] [] [] [] [] [] [] []]; reflexivity. Qed.

Lemma lower_idem (s : string) : Str.lower (Str.lower s) = Str.lower s.
Proof. induction s as [|c s IH]; [reflexivity|]. cbn. now rewrite lower_char_idem, IH. Qed.

Lemma lstrip_lower (s : string) : Str.lstrip (Str.lower s) = Str.lower (Str.lstrip s).
Proof.
  induction s as [|c s IH]; [reflexivity|]. cbn [Str.lower Str.lstrip].
  rewrite isspace_lower_char. destruct (Str.isspace c); [exact IH|reflexivity].
Qed.

Lemma rstrip_lower (s : string) : Str.rstrip (Str.lower s) = Str.lower (Str.rstrip s).
Proof.
  induction s as [|c s IH]; [reflexivity|]. cbn [Str.lower Str.rstrip].
  rewrite IH, isspace_lower_char.
  destruct (Str.rstrip s) as [|c' t]; cbn [Str.lower]; [|reflexivity].
  destruct (Str.isspace c); reflexivity.
Qed.

Lemma strip_lower (s : string) : Str.strip (Str.lower s) = Str.lower (Str.strip s).
Proof. unfold Str.strip. now rewrite lstrip_lower, rstrip_lower. Qed.



Lemma lstrip_no_leading_space (s : string) : no_leading_space (Str.lstrip s).
Proof.
  induction s as [|c s IH]; [exact I|]. cbn [Str.lstrip].
  destruct (Str.isspace c) eqn:Hc; [exact IH|exact Hc].
Qed.

Lemma lstrip_fixed (s : string) : no_leading_space s -> Str.lstrip s = s.
Proof. destruct s as [|c s]; [reflexivity|]. cbn. now intros ->. Qed.

Lemma rstrip_no_leading_space (s : string) :
  no_leading_space s -> no_leading_space (Str.rstrip s).
Proof.
  destruct s as [|c s]; [auto|]. cbn [no_leading_space Str.rstrip]. intros Hc.
  destruct (Str.rstrip s); [rewrite Hc|]; exact Hc.
Qed.

Lemma rstrip_cons (c : ascii) (s : string) :
  Str.rstrip (String c s)
  = match Str.rstrip s with
    | EmptyString => if Str.isspace c then EmptyString else String c EmptyString
    | String c' t => String c (String c' t)
    end.
Proof. reflexivity. Qed.

Lemma rstrip_idem (s : string) : Str.rstrip (Str.rstrip s) = Str.rstrip s.
Proof.
  induction s as [|c s IH]; [reflexivity|]. rewrite rstrip_cons.
  destruct (Str.rstrip s) as [|c' t] eqn:Hr.
  - destruct (Str.isspace c) eqn:Hc; [reflexivity|]. cbn. now rewrite Hc.
  - rewrite rstrip_cons, IH. reflexivity.
Qed.

Lemma strip_idem (s : string) : Str.strip (Str.strip s) = Str.strip s.
Proof.
  unfold Str.strip.
  rewrite (lstrip_fixed (Str.rstrip (Str.lstrip s))).
  - apply rstrip_idem.
  - apply rstrip_no_leading_space, lstrip_no_leading_space.
Qed.

Lemma normalise_idem (s : string) :
  Str.lower (Str.strip (Str.lower (Str.strip s))) = Str.lower (Str.strip s).
Proof. now rewrite strip_lower, strip_idem, lower_idem. Qed.

(** X18. A mood accepted by the manual selection is the line stripped and in
    lower case; it is a fixed point of that normalisation, and typing the
    accepted mood itself gives the same mood and the same output. *)
Theorem accepted_mood_is_normal (w : world) (choice line mood : string)
        (rest ins' : list string) (evs : list event) :
  Str.strip choice = "3" ->
  run (Main.acquire w) (choice :: line :: rest) = (Ok (Main.Mood mood), ins', evs) ->
  mood = Str.lower (Str.strip line) /\
  Str.lower (Str.strip mood) = mood /\
  run (Main.acquire w) (choice :: mood :: rest) = (Ok (Main.Mood mood), rest, evs).
Proof.
  intros Hc. loop_unfold. rewrite Hc. cbn [String.eqb Ascii.eqb Bool.eqb]. loop_unfold.
  destruct (dict_mem (Str.lower (Str.strip line)) MOOD_FOLDERS) eqn:Hm; cbn [negb];
    [|discriminate].
  intros [= <- <- <-]. split; [reflexivity|]. rewrite normalise_idem. split; [reflexivity|].
  now rewrite Hm.
Qed.

Lemma accepted_mood_is_normal_witness :
  "fear" = Str.lower (Str.strip "  FEAR ") /\
  Str.lower (Str.strip "fear") = "fear" /\
  run (Main.acquire Sample.silent) ["3"; "fear"; "1"]
  = (Ok (Main.Mood "fear"), ["1"],
     snd (run (Main.acquire Sample.silent) ["3"; "  FEAR "; "1"])).
Proof.
  apply (accepted_mood_is_normal Sample.silent "3" "  FEAR " "fear" ["1"] ["1"]).
  - reflexivity.
  - vm_compute. reflexivity.
Defined.

(** ** The first bootstrap *)

Section FirstRun.
Implicit Types (t : gmap FS.path FS.node) (p q : FS.path).

Lemma parent_shorter p : p <> [] -> length (FS.parent p) < length p.
Proof.
  unfold FS.parent. induction p as [|c p IH]; [congruence|]. intros _.
  destruct p as [|c' p]; [simpl; lia|].
  change (removelast (c :: c' :: p)) with (c :: removelast (c' :: p)).
  specialize (IH ltac:(discriminate)). simpl in *. lia.
Qed.

Lemma parent_snoc p (c : string) : FS.parent (p ++ [c]) = p.
Proof. unfold FS.parent. apply removelast_last. Qed.

Lemma node_at_insert_ne t p q n :
  p <> q -> FS.node_at (<[p := n]> t) q = FS.node_at t q.
Proof.
  intros Hne. unfold FS.node_at. destruct q; [reflexivity|]. now apply lookup_insert_ne.
Qed.

Lemma node_at_insert_eq t p n : p <> [] -> FS.node_at (<[p := n]> t) p = Some n.
Proof.
  intros Hne. unfold FS.node_at. destruct p; [congruence|]. apply lookup_insert_eq.
Qed.

Lemma node_at_lookup t p : p <> [] -> FS.node_at t p = t !! p.
Proof. destruct p; [congruence|reflexivity]. Qed.

(** Adding a node at a free place inside a directory keeps the tree
    well formed and keeps what it holds. *)
Lemma insert_fresh t p n :
  well_formed t -> p <> [] -> t !! p = None ->
  FS.node_at t (FS.parent p) = Some FS.Dir ->
  t ⊆ <[p := n]> t /\ well_formed (<[p := n]> t).
Proof.
  intros Hwf Hp Hnone Hpar. split; [now apply insert_subseteq|].
  intros q m Hq. destruct (decide (p = q)) as [<-|Hne].
  - split; [exact Hp|]. rewrite node_at_insert_ne; [exact Hpar|].
    intros Heq. pose proof (parent_shorter p Hp) as Hl. rewrite <- Heq in Hl. lia.
  - rewrite lookup_insert_ne in Hq by exact Hne.
    destruct (Hwf q m Hq) as [Hq0 Hqpar]. split; [exact Hq0|].
    destruct (decide (p = FS.parent q)) as [Heq|Hne'].
    + rewrite <- Heq in Hqpar. rewrite node_at_lookup in Hqpar by exact Hp. congruence.
    + now rewrite node_at_insert_ne.
Qed.

Lemma os_mkdir_fresh t p t' :
  well_formed t -> FS.os_mkdir t p = Ok t' ->
  t ⊆ t' /\ well_formed t' /\ (forall q, length p < length q -> t' !! q = t !! q).
Proof.
  intros Hwf. unfold FS.os_mkdir.
  destruct (FS.node_at t p) eqn:Hn; [discriminate|].
  destruct (FS.node_at t (FS.parent p)) as [[]|] eqn:Hpar; try discriminate.
  intros [= <-].
  assert (Hp : p <> []) by (intros Heq; subst p; discriminate Hn).
  rewrite node_at_lookup in Hn by exact Hp.
  destruct (insert_fresh t p FS.Dir Hwf Hp Hn Hpar) as [Hsub Hwf'].
  split; [exact Hsub|]. split; [exact Hwf'|].
  intros q Hl. apply lookup_insert_ne. intros Heq. subst q. lia.
Qed.

Lemma mkdir_exist_ok_fresh t p t' :
  well_formed t -> FS.mkdir_exist_ok t p = Ok t' ->
  t ⊆ t' /\ well_formed t' /\ (forall q, length p < length q -> t' !! q = t !! q).
Proof.
  intros Hwf. unfold FS.mkdir_exist_ok.
  destruct (FS.os_mkdir t p) as [t0|e] eqn:Hm.
  - intros [= <-]. now apply os_mkdir_fresh.
  - destruct (FS.is_dir t p); [|discriminate]. intros [= <-]. auto.
Qed.

Lemma mkdir_parents_rev_fresh rp : forall t t',
  well_formed t -> FS.mkdir_parents_rev t rp = Ok t' ->
  t ⊆ t' /\ well_formed t' /\ (forall q, length rp < length q -> t' !! q = t !! q).
Proof.
  induction rp as [|c rp IH]; intros t t' Hwf H.
  - injection H as <-. auto.
  - cbn [FS.mkdir_parents_rev] in H.
    assert (Hlen : length (rev (c :: rp)) = length (c :: rp)) by apply length_rev.
    destruct (FS.os_mkdir t (rev (c :: rp))) as [t0|e] eqn:Hm.
    + injection H as <-. destruct (os_mkdir_fresh _ _ _ Hwf Hm) as (Hs & Hw & Hk).
      split; [exact Hs|]. split; [exact Hw|]. intros q Hq. apply Hk. lia.
    + assert (Hdir : (if FS.is_dir t (rev (c :: rp)) then Ok t else Raise e) = Ok t' ->
                     t ⊆ t' /\ well_formed t' /\
                     (forall q, length (c :: rp) < length q -> t' !! q = t !! q)).
      { destruct (FS.is_dir t (rev (c :: rp))); [|discriminate]. intros [= <-]. auto. }
      destruct e; try (now apply Hdir).
      unfold res_bind in H.
      destruct (FS.mkdir_parents_rev t rp) as [t1|e1] eqn:Hp; [|discriminate].
      destruct (IH _ _ Hwf Hp) as (Hs1 & Hw1 & Hk1).
      destruct (mkdir_exist_ok_fresh _ _ _ Hw1 H) as (Hs2 & Hw2 & Hk2).
      split; [etrans; eauto|]. split; [exact Hw2|].
      intros q Hq. rewrite Hk2 by lia. apply Hk1. simpl in Hq. lia.
Qed.

Lemma write_text_fresh t p content t' :
  well_formed t -> t !! p = None -> FS.write_text t p content = Ok t' ->
  t ⊆ t' /\ well_formed t'.
Proof.
  intros Hwf Hnone. unfold FS.write_text.
  destruct (FS.node_at t (FS.parent p)) as [[]|] eqn:Hpar; try discriminate.
  destruct (decide (p = [])) as [->|Hp]; [discriminate|].
  rewrite node_at_lookup by exact Hp. rewrite Hnone. intros [= <-].
  now apply insert_fresh.
Qed.

Lemma ensure_loop_fresh items : forall t t',
  well_formed t -> FS.ensure_loop items t = Ok t' -> t ⊆ t' /\ well_formed t'.
Proof.
  induction items as [|[mood path_str] items IH]; intros t t' Hwf H.
  - injection H as <-. auto.
  - cbn [FS.ensure_loop] in H.
    destruct (FS.exists_ t (FS.of_string path_str)) eqn:Hex; [now apply IH|].
    unfold res_bind in H.
    destruct (FS.mkdir_parents t (FS.of_string path_str)) as [t1|e] eqn:Hm; [|discriminate].
    destruct (FS.write_text t1 _ _) as [t2|e] eqn:Hw; [|discriminate].
    unfold FS.mkdir_parents in Hm.
    destruct (mkdir_parents_rev_fresh _ _ _ Hwf Hm) as (Hs1 & Hw1 & Hk1).
    assert (Hfree : t1 !! (FS.of_string path_str ++ ["README.txt"]) = None).
    { rewrite Hk1 by (rewrite length_rev, length_app; simpl; lia).
      match goal with |- ?x = None => destruct x as [n|] eqn:Hn end; [|reflexivity].
      destruct (Hwf _ _ Hn) as [_ Hpar]. rewrite parent_snoc in Hpar.
      unfold FS.exists_ in Hex. rewrite Hpar in Hex. discriminate. }
    destruct (write_text_fresh _ _ _ _ Hw1 Hfree Hw) as (Hs2 & Hw2).
    destruct (IH _ _ Hw2 H) as (Hs3 & Hw3).
    split; [|exact Hw3]. etrans; [exact Hs1|]. etrans; eauto.
Qed.

End FirstRun.

(** X19. On a well-formed tree (every node lies in a directory), a bootstrap
    that returns keeps every file and directory that was there, with its
    content, and leaves the tree well formed. *)
Theorem ensure_music_folders_keeps_content (t t1 : gmap FS.path FS.node) :
  well_formed t ->
  FS.ensure_music_folders t = Ok t1 ->
  (forall p n, t !! p = Some n -> t1 !! p = Some n) /\ well_formed t1.
Proof.
  intros Hwf H. destruct (ensure_loop_fresh _ _ _ Hwf H) as [Hsub Hwf1].
  split; [|exact Hwf1]. intros p n Hp. eapply lookup_weaken; eauto.
Qed.

Section Progress.
Implicit Types (t : gmap FS.path FS.node) (p : FS.path).

Lemma os_mkdir_child t p :
  FS.node_at t p = None -> FS.node_at t (FS.parent p) = Some FS.Dir ->
  FS.os_mkdir t p = Ok (<[p := FS.Dir]> t).
Proof. unfold FS.os_mkdir. now intros -> ->. Qed.

Lemma os_mkdir_orphan t p :
  FS.node_at t p = None -> FS.node_at t (FS.parent p) = None ->
  FS.os_mkdir t p = Raise (FileNotFoundError "No such file or directory").
Proof. unfold FS.os_mkdir. now intros -> ->. Qed.

Lemma os_mkdir_under_file t p (content : string) :
  FS.node_at t p = None -> FS.node_at t (FS.parent p) = Some (FS.File content) ->
  FS.os_mkdir t p = Raise (NotADirectoryError "Not a directory").
Proof. unfold FS.os_mkdir. now intros -> ->. Qed.

Lemma exists_false_node t p : FS.exists_ t p = false -> FS.node_at t p = None.
Proof. unfold FS.exists_. destruct (FS.node_at t p); [discriminate|reflexivity]. Qed.

(** In a well-formed tree nothing lies below a missing node. *)
Lemma nothing_below_missing t p (c : string) :
  well_formed t -> p <> [] -> FS.node_at t p = None -> FS.node_at t (p ++ [c]) = None.
Proof.
  intros Hwf Hp Hnone. destruct (FS.node_at t (p ++ [c])) as [n|] eqn:Hn; [|reflexivity].
  rewrite node_at_lookup in Hn by (destruct p; discriminate).
  destruct (Hwf _ _ Hn) as [_ Hpar]. rewrite parent_snoc in Hpar. congruence.
Qed.

(** Creating the folder [a/b] and its placeholder, where [a] is free or
    a directory. *)
Lemma create_folder_ok t (a b mood : string) :
  well_formed t ->
  FS.node_at t [a] = None \/ FS.node_at t [a] = Some FS.Dir ->
  FS.exists_ t [a; b] = false ->
  exists t1 t2,
    FS.mkdir_parents t [a; b] = Ok t1 /\
    FS.write_text t1 ([a; b] ++ ["README.txt"])
      ("Place mp3 files for mood '" +:+ mood +:+ "' in this folder.") = Ok t2 /\
    well_formed t2 /\ FS.node_at t2 [a] = Some FS.Dir.
Proof.
  intros Hwf Ha Hex. apply exists_false_node in Hex.
  assert (Hm : exists t1, FS.mkdir_parents t [a; b] = Ok t1 /\
                          FS.node_at t1 [a] = Some FS.Dir /\
                          FS.node_at t1 [a; b] = Some FS.Dir).
  { unfold FS.mkdir_parents. cbn [rev app FS.mkdir_parents_rev].
    destruct Ha as [Ha|Ha].
    - rewrite (os_mkdir_orphan t [a; b]) by auto.
      cbn [res_bind]. rewrite (os_mkdir_child t [a]) by auto.
      cbn [res_bind]. unfold FS.mkdir_exist_ok.
      rewrite (os_mkdir_child (<[ [a] := FS.Dir ]> t) [a; b]).
      + eexists. split; [reflexivity|]. split.
        * rewrite node_at_insert_ne by discriminate. now apply node_at_insert_eq.
        * now apply node_at_insert_eq.
      + now rewrite node_at_insert_ne by discriminate.
      + now apply node_at_insert_eq.
    - rewrite (os_mkdir_child t [a; b]) by auto.
      eexists. split; [reflexivity|]. split.
      + now rewrite node_at_insert_ne by discriminate.
      + now apply node_at_insert_eq. }
  destruct Hm as (t1 & Hm & H1a & H1ab). exists t1.
  pose proof Hm as Hm'. unfold FS.mkdir_parents in Hm'.
  destruct (mkdir_parents_rev_fresh _ _ _ Hwf Hm') as (Hs1 & Hw1 & Hk1).
  pose proof (nothing_below_missing t [a; b] "README.txt" Hwf ltac:(discriminate) Hex) as Hfree0.
  assert (Hfree : FS.node_at t1 ([a; b] ++ ["README.txt"]) = None).
  { cbn [FS.node_at app] in *. rewrite Hk1 by (simpl; lia). exact Hfree0. }
  assert (Hw : FS.write_text t1 ([a; b] ++ ["README.txt"])
                 ("Place mp3 files for mood '" +:+ mood +:+ "' in this folder.")
               = Ok (<[ [a; b] ++ ["README.txt"] := FS.File
                          ("Place mp3 files for mood '" +:+ mood +:+ "' in this folder.") ]> t1)).
  { unfold FS.write_text. now rewrite parent_snoc, H1ab, Hfree. }
  eexists. split; [exact Hm|]. split; [exact Hw|].
  destruct (write_text_fresh _ _ _ _ Hw1 Hfree Hw) as (_ & Hw2). split; [exact Hw2|].
  now rewrite node_at_insert_ne by discriminate.
Qed.

Lemma ensure_loop_succeeds (a : string) (items : list (string * string)) : forall t,
  well_formed t ->
  FS.node_at t [a] = None \/ FS.node_at t [a] = Some FS.Dir ->
  Forall (fun kv => exists b, FS.of_string (snd kv) = [a; b]) items ->
  exists t', FS.ensure_loop items t = Ok t'.
Proof.
  induction items as [|[mood path_str] items IH]; intros t Hwf Ha Hall; [now eexists|].
  apply Forall_cons_1 in Hall. destruct Hall as [[b Hb] Hall]. cbn [snd] in Hb.
  cbn [FS.ensure_loop]. rewrite Hb.
  destruct (FS.exists_ t [a; b]) eqn:Hex; [now apply IH|].
  destruct (create_folder_ok t a b mood Hwf Ha Hex) as (t1 & t2 & Hm & Hw & Hw2 & H2a).
  rewrite Hm. cbn [res_bind]. rewrite Hw. cbn [res_bind].
  apply IH; auto.
Qed.

End Progress.

(** X20. On a well-formed tree the bootstrap returns whenever [music] is
    missing or a directory, whatever else the tree holds; when [music] is a
    file it raises [NotADirectoryError]. *)
Theorem ensure_music_folders_fails_only_on_music_file (t : gmap FS.path FS.node) :
  well_formed t ->
  (FS.node_at t ["music"] = None \/ FS.node_at t ["music"] = Some FS.Dir ->
   exists t1, FS.ensure_music_folders t = Ok t1) /\
  (forall content,
     FS.node_at t ["music"] = Some (FS.File content) ->
     FS.ensure_music_folders t = Raise (NotADirectoryError "Not a directory")).
Proof.
  intros Hwf. split.
  - intros Ha. apply (ensure_loop_succeeds "music"); auto.
    unfold MOOD_FOLDERS. repeat (constructor; [eexists; reflexivity|]). constructor.
  - intros content Hfile.
    assert (Hab : FS.node_at t ["music"; "happy"] = None).
    { destruct (FS.node_at t ["music"; "happy"]) as [n|] eqn:Hn; [|reflexivity].
      rewrite node_at_lookup in Hn by discriminate.
      destruct (Hwf _ _ Hn) as [_ Hpar].
      change (FS.node_at t ["music"] = Some FS.Dir) in Hpar. congruence. }
    unfold FS.ensure_music_folders, MOOD_FOLDERS. cbn [FS.ensure_loop].
    change (FS.of_string "music/happy") with ["music"; "happy"].
    assert (Hex : FS.exists_ t ["music"; "happy"] = false).
    { unfold FS.exists_. now rewrite Hab. }
    rewrite Hex.
    unfold FS.mkdir_parents. cbn [rev app FS.mkdir_parents_rev].
    rewrite (os_mkdir_under_file t ["music"; "happy"] content) by auto.
    assert (Hd : FS.is_dir t ["music"; "happy"] = false).
    { unfold FS.is_dir. now rewrite Hab. }
    rewrite Hd. reflexivity.
Qed.

Section Placeholders.
Implicit Types (t : gmap FS.path FS.node) (p q : FS.path).

Lemma os_mkdir_footprint t p t' :
  FS.os_mkdir t p = Ok t' -> forall q, FS.node_at t' q = FS.node_at t q \/ q = p.
Proof.
  unfold FS.os_mkdir. destruct (FS.node_at t p); [discriminate|].
  destruct (FS.node_at t (FS.parent p)) as [[]|]; try discriminate.
  intros [= <-] q. destruct (decide (p = q)) as [->|Hne]; [now right|left].
  now apply node_at_insert_ne.
Qed.

Lemma mkdir_exist_ok_footprint t p t' :
  FS.mkdir_exist_ok t p = Ok t' -> forall q, FS.node_at t' q = FS.node_at t q \/ q = p.
Proof.
  unfold FS.mkdir_exist_ok. destruct (FS.os_mkdir t p) as [t0|e] eqn:Hm.
  - intros [= <-]. now apply os_mkdir_footprint.
  - destruct (FS.is_dir t p); [|discriminate]. intros [= <-] q. now left.
Qed.

(** [mkdir] with parents touches the path and the paths above it only. *)
Lemma mkdir_parents_rev_footprint rp : forall t t',
  FS.mkdir_parents_rev t rp = Ok t' ->
  forall q, FS.node_at t' q = FS.node_at t q \/ exists k, rev rp = q ++ k.
Proof.
  induction rp as [|c rp IH]; intros t t' H q.
  - injection H as <-. now left.
  - cbn [FS.mkdir_parents_rev] in H.
    destruct (FS.os_mkdir t (rev (c :: rp))) as [t0|e] eqn:Hm.
    + injection H as <-. destruct (os_mkdir_footprint _ _ _ Hm q) as [Hq| ->]; [now left|].
      right. exists []. now rewrite app_nil_r.
    + assert (Hdir : (if FS.is_dir t (rev (c :: rp)) then Ok t else Raise e) = Ok t' ->
                     FS.node_at t' q = FS.node_at t q \/ exists k, rev (c :: rp) = q ++ k).
      { destruct (FS.is_dir t (rev (c :: rp))); [|discriminate]. intros [= <-]. now left. }
      destruct e; try (now apply Hdir).
      unfold res_bind in H.
      destruct (FS.mkdir_parents_rev t rp) as [t1|e1] eqn:Hp; [|discriminate].
      destruct (mkdir_exist_ok_footprint _ _ _ H q) as [Hq| ->].
      * rewrite Hq. destruct (IH _ _ Hp q) as [Hq1|[k Hk]]; [now left|].
        right. exists (k ++ [c]). cbn [rev]. rewrite Hk. now rewrite app_assoc.
      * right. exists []. now rewrite app_nil_r.
Qed.

Lemma write_text_footprint t p content t' :
  FS.write_text t p content = Ok t' ->
  FS.node_at t' p = Some (FS.File content) /\
  forall q, FS.node_at t' q = FS.node_at t q \/ q = p.
Proof.
  intros H.
  assert (Hp : p <> []).
  { intros ->. discriminate H. }
  revert H. unfold FS.write_text.
  destruct (FS.node_at t (FS.parent p)) as [[]|] eqn:Hpar; try discriminate.
  destruct (FS.node_at t p) as [[]|]; try discriminate; intros [= <-];
    (split; [now apply node_at_insert_eq|]); intros q;
    (destruct (decide (p = q)) as [->|Hne]; [now right|left; now apply node_at_insert_ne]).
Qed.

Lemma exists_node_at t t' p :
  FS.node_at t' p = FS.node_at t p -> FS.exists_ t' p = FS.exists_ t p.
Proof. unfold FS.exists_. now intros ->. Qed.

(** The bootstrap touches only what it creates: the folders that were
    missing, the paths above them and their placeholders. *)
Lemma ensure_loop_footprint items : forall t t',
  FS.ensure_loop items t = Ok t' ->
  forall q,
    FS.node_at t' q = FS.node_at t q \/
    exists mood path_str,
      In (mood, path_str) items /\ FS.exists_ t (FS.of_string path_str) = false /\
      ((exists k, FS.of_string path_str = q ++ k) \/
       q = FS.of_string path_str ++ ["README.txt"]).
Proof.
  induction items as [|[mood path_str] items IH]; intros t t' H q.
  - injection H as <-. now left.
  - cbn [FS.ensure_loop] in H.
    destruct (FS.exists_ t (FS.of_string path_str)) eqn:Hex.
    + destruct (IH _ _ H q) as [Hq|(m & s & Hin & He & Hk)]; [now left|].
      right. exists m, s. split; [now right|]. auto.
    + unfold res_bind in H.
      destruct (FS.mkdir_parents t (FS.of_string path_str)) as [t1|e] eqn:Hm; [|discriminate].
      destruct (FS.write_text t1 _ _) as [t2|e] eqn:Hw; [|discriminate].
      destruct (mkdir_parents_ok _ _ _ Hm) as [_ Hmono1].
      pose proof (write_text_ok _ _ _ _ Hw) as Hmono2.
      destruct (IH _ _ H q) as [Hq|(m & s & Hin & He & Hk)].
      * rewrite Hq. destruct (write_text_footprint _ _ _ _ Hw) as [_ Hfw].
        destruct (Hfw q) as [Hq2| ->].
        -- rewrite Hq2. unfold FS.mkdir_parents in Hm.
           destruct (mkdir_parents_rev_footprint _ _ _ Hm q) as [Hq1|[k Hk]]; [now left|].
           rewrite rev_involutive in Hk.
           right. exists mood, path_str. split; [now left|]. split; [exact Hex|].
           left. now exists k.
        -- right. exists mood, path_str. split; [now left|]. split; [exact Hex|]. now right.
      * right. exists m, s. split; [now right|]. split; [|exact Hk].
        destruct (FS.exists_ t (FS.of_string s)) eqn:E; [|reflexivity].
        apply Hmono1, Hmono2 in E. congruence.
Qed.

Lemma ensure_loop_placeholder items : forall t t',
  Forall (fun kv => length (FS.of_string (snd kv)) = 2) items ->
  NoDup (map (fun kv => FS.of_string (snd kv)) items) ->
  FS.ensure_loop items t = Ok t' ->
  forall mood path_str,
    In (mood, path_str) items ->
    FS.exists_ t (FS.of_string path_str) = false ->
    FS.node_at t' (FS.of_string path_str ++ ["README.txt"])
    = Some (FS.File ("Place mp3 files for mood '" +:+ mood +:+ "' in this folder.")).
Proof.
  induction items as [|[m0 s0] items IH]; intros t t' Hlen Hnd H mood path_str Hin Hex;
    [destruct Hin|].
  apply Forall_cons_1 in Hlen. destruct Hlen as [Hl0 Hlen]. cbn [snd] in Hl0.
  cbn [map snd] in Hnd. apply NoDup_cons in Hnd. destruct Hnd as [Hfresh Hnd].
  assert (Hlens : forall m s, In (m, s) items -> length (FS.of_string s) = 2).
  { intros m s Hi. rewrite List.Forall_forall in Hlen. apply (Hlen (m, s) Hi). }
  assert (Hother : forall m s, In (m, s) items -> FS.of_string s <> FS.of_string s0).
  { intros m s Hi Heq. apply Hfresh. apply list_elem_of_In. apply in_map_iff.
    exists (m, s). auto. }
  cbn [FS.ensure_loop] in H.
  destruct Hin as [Heq|Hin].
  - injection Heq as -> ->. rewrite Hex in H. unfold res_bind in H.
    destruct (FS.mkdir_parents t (FS.of_string path_str)) as [t1|e] eqn:Hm; [|discriminate].
    destruct (FS.write_text t1 _ _) as [t2|e] eqn:Hw; [|discriminate].
    destruct (write_text_footprint _ _ _ _ Hw) as [Hfile _].
    destruct (ensure_loop_footprint _ _ _ H (FS.of_string path_str ++ ["README.txt"]))
      as [Hq|(m & s & Hi & He & [[k Hk]|Hk])].
    + now rewrite Hq.
    + exfalso. pose proof (Hlens m s Hi) as Hl. rewrite Hk in Hl.
      rewrite !length_app in Hl. simpl in Hl. lia.
    + exfalso. apply app_inj_tail in Hk. destruct Hk as [Hk _].
      apply (Hother m s Hi). now symmetry.
  - destruct (FS.exists_ t (FS.of_string s0)) eqn:Hex0; [now apply (IH t t')|].
    unfold res_bind in H.
    destruct (FS.mkdir_parents t (FS.of_string s0)) as [t1|e] eqn:Hm; [|discriminate].
    destruct (FS.write_text t1 _ _) as [t2|e] eqn:Hw; [|discriminate].
    apply (IH t2 t'); auto.
    rewrite <- Hex. apply exists_node_at.
    destruct (write_text_footprint _ _ _ _ Hw) as [_ Hfw].
    destruct (Hfw (FS.of_string path_str)) as [Hq2|Hq2].
    + rewrite Hq2. unfold FS.mkdir_parents in Hm.
      destruct (mkdir_parents_rev_footprint _ _ _ Hm (FS.of_string path_str)) as [Hq1|[k Hk]];
        [exact Hq1|].
      exfalso. rewrite rev_involutive in Hk.
      assert (k = []).
      { pose proof (Hlens mood path_str Hin) as Hl. rewrite Hk in Hl0.
        rewrite length_app in Hl0. destruct k; [reflexivity|simpl in Hl0; lia]. }
      subst k. rewrite app_nil_r in Hk. apply (Hother mood path_str Hin). now symmetry.
    + exfalso. pose proof (Hlens mood path_str Hin) as Hl. rewrite Hq2 in Hl.
      rewrite length_app in Hl. simpl in Hl. lia.
Qed.

End Placeholders.

Lemma mood_paths_shape :
  Forall (fun kv => length (FS.of_string (snd kv)) = 2) MOOD_FOLDERS /\
  NoDup (map (fun kv => FS.of_string (snd kv)) MOOD_FOLDERS).
Proof.
  split.
  - unfold MOOD_FOLDERS. repeat (constructor; [reflexivity|]). constructor.
  - vm_compute. repeat (apply NoDup_cons_2; [rewrite list_elem_of_In; cbn; intuition discriminate|]).
    apply NoDup_nil_2.
Qed.

(** X21. After a bootstrap that returns, the folder of a mood that was missing
    holds a README.txt with the text "Place mp3 files for mood '<mood>' in
    this folder."; under a folder that was there already, README.txt is as
    it was before (missing, or with its old content). *)
Theorem ensure_music_folders_placeholders (t t1 : gmap FS.path FS.node)
        (mood path_str : string) :
  FS.ensure_music_folders t = Ok t1 ->
  In (mood, path_str) MOOD_FOLDERS ->
  (FS.exists_ t (FS.of_string path_str) = false ->
   FS.node_at t1 (FS.of_string path_str ++ ["README.txt"])
   = Some (FS.File ("Place mp3 files for mood '" +:+ mood +:+ "' in this folder."))) /\
  (FS.exists_ t (FS.of_string path_str) = true ->
   FS.node_at t1 (FS.of_string path_str ++ ["README.txt"])
   = FS.node_at t (FS.of_string path_str ++ ["README.txt"])).
Proof.
  intros H Hin. destruct mood_paths_shape as [Hlen Hnd]. split.
  - intros Hex. now apply (ensure_loop_placeholder MOOD_FOLDERS t t1).
  - intros Hex.
    destruct (ensure_loop_footprint _ _ _ H (FS.of_string path_str ++ ["README.txt"]))
      as [Hq|(m & s & Hi & He & [[k Hk]|Hk])]; [exact Hq| |].
    + exfalso. rewrite List.Forall_forall in Hlen. pose proof (Hlen (m, s) Hi) as Hl.
      pose proof (Hlen (mood, path_str) Hin) as Hl'.
      cbn [snd] in Hl, Hl'. rewrite Hk in Hl. rewrite !length_app in Hl. simpl in Hl. lia.
    + exfalso. apply app_inj_tail in Hk. destruct Hk as [Hk _]. congruence.
Qed.

Lemma well_formed_empty : well_formed ∅.
Proof. intros p n H. rewrite lookup_empty in H. discriminate. Qed.

Lemma well_formed_singleton (c : string) (n : FS.node) : well_formed {[ [c] := n ]}.
Proof.
  intros p m H. apply lookup_singleton_Some in H. destruct H as [<- _].
  split; [discriminate|reflexivity].
Qed.

Lemma ensure_music_folders_keeps_content_witness :
  exists t1,
    FS.ensure_music_folders {[ ["music"] := FS.Dir ]} = Ok t1 /\
    (forall p n, ({[ ["music"] := FS.Dir ]} : gmap FS.path FS.node) !! p = Some n ->
                 t1 !! p = Some n) /\
    well_formed t1.
Proof.
  assert (Hok : IO.is_ok (FS.ensure_music_folders {[ ["music"] := FS.Dir ]}) = true)
    by (vm_compute; reflexivity).
  pose proof (ok_value _ ∅ Hok) as H.
  eexists. split; [exact H|].
  exact (ensure_music_folders_keeps_content _ _ (well_formed_singleton "music" FS.Dir) H).
Defined.

Lemma ensure_music_folders_fails_only_on_music_file_witness :
  (exists t1, FS.ensure_music_folders ∅ = Ok t1) /\
  FS.ensure_music_folders {[ ["music"] := FS.File "notes" ]}
  = Raise (NotADirectoryError "Not a directory").
Proof.
  split.
  - apply (proj1 (ensure_music_folders_fails_only_on_music_file ∅ well_formed_empty)).
    left. reflexivity.
  - apply (proj2 (ensure_music_folders_fails_only_on_music_file
                    {[ ["music"] := FS.File "notes" ]}
                    (well_formed_singleton "music" (FS.File "notes"))) "notes").
    vm_compute. reflexivity.
Defined.

Lemma ensure_music_folders_placeholders_witness :
  exists t1,
    FS.ensure_music_folders {[ ["music"] := FS.Dir ]} = Ok t1 /\
    FS.node_at t1 ["music"; "sad"; "README.txt"]
    = Some (FS.File "Place mp3 files for mood 'sad' in this folder.").
Proof.
  assert (Hok : IO.is_ok (FS.ensure_music_folders {[ ["music"] := FS.Dir ]}) = true)
    by (vm_compute; reflexivity).
  pose proof (ok_value _ ∅ Hok) as H.
  eexists. split; [exact H|].
  apply (ensure_music_folders_placeholders _ _ "sad" "music/sad" H).
  - unfold MOOD_FOLDERS. cbn [In]. tauto.
  - vm_compute. reflexivity.
Defined.

(** ** Sample runs *)

Example aggregate_majority :
  Webcam.aggregate Webcam.order_rev ["sad"; "happy"; "sad"; "fear"; "sad"; "happy"]
  = Ok (Some "sad").
Proof. vm_compute. reflexivity. Qed.

Example capture_three_frames :
  WebcamMoodDetector.capture false 12
    [ ReadOk [[("angry", S754_zero false); ("happy", Text.half); ("sad", Text.f0_3)]] 0;
      ReadOk [] 0;
      ReadOk [[("happy", Text.f0_3); ("sad", Text.half)]] 0;
      ReadFail ] []
  = Ok ["happy"; "sad"].
Proof. vm_compute. reflexivity. Qed.

(** [Text.f0_3] is the binary64 number that the literal [0.3] denotes,
    [0x1.3333333333333p-2]: of the two floats around 3/10 it is the
    nearer one. *)
Example f0_3_is_the_literal :
  FloatOps.Prim2SF 0x1.3333333333333p-2%float = Text.f0_3 /\
  FloatOps.Prim2SF (PrimFloat.opp 0x1.3333333333333p-2%float) = SFopp Text.f0_3 /\
  FloatOps.Prim2SF 0.5%float = Text.half.
Proof. vm_compute. repeat split; reflexivity. Qed.

Example f0_3_is_nearest :
  (Text.scaled 5404319552844595 (-54) < 3 # 10 < Text.scaled 5404319552844596 (-54))%Q /\
  ((3 # 10) - Text.scaled 5404319552844595 (-54)
   < Text.scaled 5404319552844596 (-54) - (3 # 10))%Q.
Proof. vm_compute. repeat split; reflexivity. Qed.

Example polarity_next_above_0_3 :
  Text.mood_of_polarity (S754_finite false 5404319552844596 (-54)) = "happy" /\
  Text.mood_of_polarity (S754_finite true 5404319552844596 (-54)) = "sad" /\
  Text.mood_of_polarity S754_nan = "neutral".
Proof. repeat split; reflexivity. Qed.

Example strip_lower_happy : Str.lower (Str.strip "  HaPPy  ") = "happy".
Proof. reflexivity. Qed.

Example music_files_of_happy :
  catalog Sample.local_ok "music/happy" = Ok ["music/happy/a.MP3"; "music/happy/b.ogg"].
Proof. reflexivity. Qed.

Example route_streaming_success :
  run (Main.route Sample.streaming_ok true "2" "happy") []
  = (Ok tt, [],
     [ EAttempt Streaming;
       ECall (SpSearch "happy playlist") true;
       EPrint "Found playlist: Happy Hits — starting playback...";
       ECall SpDevices true;
       ECall (SpStartPlayback "d1" "spotify:playlist:1") true;
       EPrint "Playback started on device: Laptop";
       EPrint "Tip: Control playback in your Spotify app." ]).
Proof. vm_compute. reflexivity. Qed.

Example route_without_controller :
  run (Main.route Sample.streaming_ok false "2" "happy") []
  = (Ok tt, [],
     [ EAttempt Local;
       ECall (PathExists "music/happy") true;
       EPrint "No music files found in music/happy. Please add mp3/ogg/wav files there." ]).
Proof. vm_compute. reflexivity. Qed.

Example iteration_exit :
  fst (run (Main.iteration Sample.silent false) ["4"]) = (Ok false, []).
Proof. vm_compute. reflexivity. Qed.
